(** * order_manager.py: a shallow embedding and its verified properties

    The program keeps two JSON documents, [orders.json] (pending orders) and
    [output_orders.json] (completed orders).  [add_order] reads a new order
    from the terminal and appends it to the pending list; [process_order]
    moves one pending order to the completed document.

    Modelling conventions.
    - A Python [str] is a list of Unicode code points ([list N]).
    - Python values are the values [json.loads] can produce ([value]); an
      order is whatever value sits in the list, and subscripting it may
      raise, as in Python.
    - Effects are explicit: a [world] holds the files (as decoded text), the
      unread lines of standard input and what was written to the terminal;
      a computation either returns or raises ([outcome]).
    - What the interpreter takes from the Unicode character database (case
      mapping, digit classes) and the printing of floats is a parameter
      ([Runtime]); results hold for every such table.  [latin1] is an
      instance that is exact on U+0000..U+00FF, used to run examples.

    Assumptions (outside the model): text written to a file can be encoded
    (no lone surrogate), writing a file succeeds, the interpreter's recursion
    and integer-digit limits are not reached. *)

From Stdlib Require Import ZArith NArith Ascii String Decimal DecimalFacts DecimalPos DecimalN DecimalZ Lia.
From stdpp Require Import base option list gmap.

Local Open Scope N_scope.

(** ** Text *)

Abbreviation str := (list N).

(** Code point of an ASCII character, and the text of an ASCII literal. *)
Definition cp (a : ascii) : N := N_of_ascii a.
Definition lit (s : string) : str := map cp (list_ascii_of_string s).

(** [Py_UNICODE_ISSPACE]: the characters [str.strip()] removes. *)
Definition is_space (c : N) : bool :=
  ((9 <=? c) && (c <=? 13)) || ((28 <=? c) && (c <=? 32))
  || (c =? 133) || (c =? 160) || (c =? 5760)
  || ((8192 <=? c) && (c <=? 8202))
  || (c =? 8232) || (c =? 8233) || (c =? 8239) || (c =? 8287) || (c =? 12288).

Fixpoint drop_while (p : N -> bool) (s : str) : str :=
  match s with
  | c :: r => if p c then drop_while p r else s
  | [] => []
  end.

Definition lstrip (s : str) : str := drop_while is_space s.

Definition rstrip (s : str) : str := rev (lstrip (rev s)).

(** [s.strip()] *)
Definition strip (s : str) : str := rstrip (lstrip s).

(** [not s] for a string. *)
Definition is_empty {A} (l : list A) : bool :=
  match l with [] => true | _ => false end.

(** The tables of the interpreter that the program reaches through
    [str.upper], [str.isdigit], [int] and the printing of a float. *)
Class Runtime := {
  (** full uppercase mapping of one code point ([str.upper] maps each
      character, and one character may become several) *)
  to_upper_full : N -> str;
  (** [Py_UNICODE_ISDIGIT] *)
  is_digit : N -> bool;
  (** [Py_UNICODE_TODECIMAL]: the value of a decimal digit *)
  to_decimal : N -> option N;
  (** [repr] of the float a literal denotes *)
  float_repr : str -> str
}.

(** ** Exceptions and outcomes *)

Inductive exn :=
| EOFError | ValueError | KeyError | TypeError | IndexError | AttributeError
| FileNotFoundError | PermissionError | UnicodeDecodeError | JSONDecodeError.

#[global] Instance exn_eq_dec : EqDecision exn.
Proof. solve_decision. Defined.

Inductive outcome (A : Type) :=
| Returns (a : A)
| Raises (e : exn).
Arguments Returns {A} a.
Arguments Raises {A} e.

(** ** Values *)

(** What [json.loads] builds: [None], [bool], [int], [float], [str], [list]
    and [dict] (keys in insertion order).  A float is kept as the text of
    its literal. *)
#[local] Set Warnings "-register-all".
Inductive value :=
| VNone
| VBool (b : bool)
| VInt (z : Z)
| VFloat (literal : str)
| VStr (s : str)
| VList (l : list value)
| VDict (d : list (str * value)).

(** [d[k]] on a dict. *)
Fixpoint dict_get (k : str) (d : list (str * value)) : option value :=
  match d with
  | [] => None
  | (k', v) :: r => if bool_decide (k' = k) then Some v else dict_get k r
  end.

(** [d[k] = v] on a dict: an existing key keeps its place. *)
Fixpoint dict_set (k : str) (v : value) (d : list (str * value)) : list (str * value) :=
  match d with
  | [] => [(k, v)]
  | (k', v') :: r => if bool_decide (k' = k) then (k, v) :: r else (k', v') :: dict_set k v r
  end.

(** [v[k]] with a string key [k]. *)
Definition getitem (v : value) (k : str) : outcome value :=
  match v with
  | VDict d => match dict_get k d with Some x => Returns x | None => Raises KeyError end
  | _ => Raises TypeError
  end.

(** [v == s] for a string [s]. *)
Definition eq_str (v : value) (s : str) : bool :=
  match v with
  | VStr t => bool_decide (t = s)
  | _ => false
  end.

(** ** json.dump(..., ensure_ascii=False, indent=4) *)

Definition join (sep : str) (parts : list str) : str :=
  match parts with
  | [] => []
  | p :: ps => p ++ flat_map (fun q => sep ++ q) ps
  end.

Definition hex_digit (n : N) : N := if n <? 10 then 48 + n else 87 + n.

(** [ESCAPE_DCT]: the replacement of one character inside a string. *)
Definition escape_char (c : N) : str :=
  if c =? 34 then [92; 34]
  else if c =? 92 then lit "\\"
  else if c =? 10 then lit "\n"
  else if c =? 13 then lit "\r"
  else if c =? 9 then lit "\t"
  else if c =? 8 then lit "\b"
  else if c =? 12 then lit "\f"
  else if c <? 32 then lit "\u00" ++ [hex_digit (c / 16); hex_digit (c mod 16)]
  else [c].

Definition encode_basestring (s : str) : str :=
  34 :: flat_map escape_char s ++ [34].

Fixpoint uint_chars (u : uint) : str :=
  match u with
  | Nil => []
  | D0 r => 48 :: uint_chars r | D1 r => 49 :: uint_chars r
  | D2 r => 50 :: uint_chars r | D3 r => 51 :: uint_chars r
  | D4 r => 52 :: uint_chars r | D5 r => 53 :: uint_chars r
  | D6 r => 54 :: uint_chars r | D7 r => 55 :: uint_chars r
  | D8 r => 56 :: uint_chars r | D9 r => 57 :: uint_chars r
  end.

(** [repr] of an int. *)
Definition int_repr (z : Z) : str :=
  match Z.to_int z with
  | Decimal.Pos u => uint_chars u
  | Decimal.Neg u => cp "-" :: uint_chars u
  end.

Definition newline_indent (level : nat) : str :=
  10 :: repeat 32 (4 * level)%nat.

Section Encoder.
Context `{Runtime}.

(** [_iterencode] at nesting depth [level]. *)
Fixpoint encode (level : nat) (v : value) : str :=
  match v with
  | VNone => lit "null"
  | VBool true => lit "true"
  | VBool false => lit "false"
  | VInt z => int_repr z
  | VFloat l => float_repr l
  | VStr s => encode_basestring s
  | VList [] => lit "[]"
  | VList l =>
      lit "[" ++ newline_indent (S level)
      ++ join (lit "," ++ newline_indent (S level)) (map (encode (S level)) l)
      ++ newline_indent level ++ lit "]"
  | VDict [] => lit "{}"
  | VDict d =>
      lit "{" ++ newline_indent (S level)
      ++ join (lit "," ++ newline_indent (S level))
           (map (fun kv => encode_basestring (fst kv) ++ lit ": " ++ encode (S level) (snd kv)) d)
      ++ newline_indent level ++ lit "}"
  end.

Definition json_dumps (v : value) : str := encode 0 v.
End Encoder.

(** ** json.loads *)

(** [WHITESPACE]: what the decoder skips between tokens. *)
Definition json_ws (c : N) : bool :=
  (c =? 32) || (c =? 9) || (c =? 10) || (c =? 13).

Fixpoint skip_ws (s : str) : str :=
  match s with
  | c :: r => if json_ws c then skip_ws r else s
  | [] => []
  end.

Definition hex_value (c : N) : option N :=
  if (48 <=? c) && (c <=? 57) then Some (c - 48)
  else if (97 <=? c) && (c <=? 102) then Some (c - 87)
  else if (65 <=? c) && (c <=? 70) then Some (c - 55)
  else None.

(** The four hex digits of a [\uXXXX] escape. *)
Definition hex4 (a b c d : N) : option N :=
  match hex_value a, hex_value b, hex_value c, hex_value d with
  | Some x, Some y, Some z, Some t => Some (((x * 16 + y) * 16 + z) * 16 + t)
  | _, _, _, _ => None
  end.

Definition is_high_surrogate (u : N) : bool := (55296 <=? u) && (u <=? 56319).
Definition is_low_surrogate (u : N) : bool := (56320 <=? u) && (u <=? 57343).
Definition join_surrogates (hi lo : N) : N :=
  65536 + ((hi - 55296) * 1024 + (lo - 56320)).

(** One-character escapes after a backslash. *)
Definition backslash (e : N) : option N :=
  if e =? 34 then Some 34 else if e =? 92 then Some 92
  else if e =? 47 then Some 47 else if e =? 98 then Some 8
  else if e =? 102 then Some 12 else if e =? 110 then Some 10
  else if e =? 114 then Some 13 else if e =? 116 then Some 9
  else None.

Definition prepend (c : N) (r : option (str * str)) : option (str * str) :=
  match r with
  | Some (t, rest) => Some (c :: t, rest)
  | None => None
  end.

(** [scanstring] (strict): [s] starts after the opening quote; the result
    is the decoded string and what follows the closing quote. *)
Fixpoint scanstring (s : str) : option (str * str) :=
  match s with
  | [] => None
  | c :: r =>
    if c =? 34 then Some ([], r)
    else if c =? 92 then
      match r with
      | [] => None
      | e :: r1 =>
        if e =? 117 then
          match r1 with
          | h1 :: h2 :: h3 :: h4 :: r2 =>
            match hex4 h1 h2 h3 h4 with
            | None => None
            | Some uni =>
              match r2 with
              | b :: u :: l1 :: l2 :: l3 :: l4 :: r3 =>
                if is_high_surrogate uni && (b =? 92) && (u =? 117) then
                  match hex4 l1 l2 l3 l4 with
                  | None => None
                  | Some uni2 =>
                    if is_low_surrogate uni2
                    then prepend (join_surrogates uni uni2) (scanstring r3)
                    else prepend uni (scanstring r2)
                  end
                else prepend uni (scanstring r2)
              | _ => prepend uni (scanstring r2)
              end
            end
          | _ => None
          end
        else
          match backslash e with
          | Some x => prepend x (scanstring r1)
          | None => None
          end
      end
    else if c <? 32 then None
    else prepend c (scanstring r)
  end.

Definition is_digit09 (c : N) : bool := (48 <=? c) && (c <=? 57).

(** The longest prefix of ASCII digits, and the rest. *)
Fixpoint span_digits (s : str) : str * str :=
  match s with
  | c :: r =>
    if is_digit09 c then let '(ds, rest) := span_digits r in (c :: ds, rest)
    else ([], s)
  | [] => ([], [])
  end.

Fixpoint chars_uint (s : str) : uint :=
  match s with
  | [] => Nil
  | c :: r =>
    let u := chars_uint r in
    if c =? 48 then D0 u else if c =? 49 then D1 u else if c =? 50 then D2 u
    else if c =? 51 then D3 u else if c =? 52 then D4 u else if c =? 53 then D5 u
    else if c =? 54 then D6 u else if c =? 55 then D7 u else if c =? 56 then D8 u
    else D9 u
  end.

(** The optional exponent of a number (e or E, an optional sign, one or
    more digits), or nothing. *)
Definition exponent (s : str) : str * str :=
  match s with
  | e :: r =>
    if (e =? 101) || (e =? 69) then
      let '(sg, r1) :=
        match r with
        | c :: r' => if (c =? 45) || (c =? 43) then ([c], r') else ([], r)
        | [] => ([], r)
        end in
      let '(ds, rest) := span_digits r1 in
      if is_empty ds then ([], s) else (e :: sg ++ ds, rest)
    else ([], s)
  | [] => ([], s)
  end.

(** The optional fraction of a number (a dot and one or more digits), or
    nothing. *)
Definition fraction (s : str) : str * str :=
  match s with
  | p :: f :: r =>
    if (p =? 46) && is_digit09 f then
      let '(ds, rest) := span_digits (f :: r) in (p :: ds, rest)
    else ([], s)
  | _ => ([], s)
  end.

(** [_match_number]: an optional minus sign, then 0 or a digit 1-9 followed
    by digits, then the optional fraction and exponent; an int without
    them, a float otherwise. *)
Definition match_number (s : str) : option (value * str) :=
  let '(neg, s1) :=
    match s with
    | c :: r => if c =? 45 then (true, r) else (false, s)
    | [] => (false, s)
    end in
  match s1 with
  | [] => None
  | c :: r =>
    let integer :=
      if c =? 48 then Some ([c], r)
      else if (49 <=? c) && (c <=? 57) then
        let '(ds, rest) := span_digits r in Some (c :: ds, rest)
      else None in
    match integer with
    | None => None
    | Some (ip, s2) =>
      let '(frac, s3) := fraction s2 in
      let '(ex, s4) := exponent s3 in
      if is_empty frac && is_empty ex then
        Some (VInt (Z.of_int (if neg then Decimal.Neg (chars_uint ip)
                              else Decimal.Pos (chars_uint ip))), s4)
      else Some (VFloat ((if neg then [45] else []) ++ ip ++ frac ++ ex), s4)
    end
  end.

(** [s] starts with the text [p]: what follows it. *)
Fixpoint after (p s : str) : option str :=
  match p, s with
  | [], _ => Some s
  | a :: p', b :: s' => if a =? b then after p' s' else None
  | _ :: _, [] => None
  end.

(** [dict(pairs)]: a later pair with the same key replaces the value. *)
Definition dict_of_pairs (pairs : list (str * value)) : list (str * value) :=
  fold_left (fun d kv => dict_set (fst kv) (snd kv) d) pairs [].

(** [scan_once], with the loops of [JSONArray] and [JSONObject].  [fuel]
    bounds the number of nested calls; [json_loads] gives enough of it
    (lemma [scan_once_enough]). *)
Fixpoint scan_once (fuel : nat) (s : str) : option (value * str) :=
  match fuel with
  | O => None
  | S fuel =>
    match s with
    | [] => None
    | c :: r =>
      if c =? 34 then
        match scanstring r with
        | Some (t, rest) => Some (VStr t, rest)
        | None => None
        end
      else if c =? 123 then
        match skip_ws r with
        | [] => None
        | c' :: r' =>
          if c' =? 125 then Some (VDict [], r')
          else match object_items fuel (c' :: r') with
               | Some (pairs, rest) => Some (VDict (dict_of_pairs pairs), rest)
               | None => None
               end
        end
      else if c =? 91 then
        match skip_ws r with
        | [] => None
        | c' :: r' =>
          if c' =? 93 then Some (VList [], r')
          else match array_items fuel (c' :: r') with
               | Some (items, rest) => Some (VList items, rest)
               | None => None
               end
        end
      else
        match after (lit "null") s, after (lit "true") s, after (lit "false") s with
        | Some rest, _, _ => Some (VNone, rest)
        | _, Some rest, _ => Some (VBool true, rest)
        | _, _, Some rest => Some (VBool false, rest)
        | _, _, _ =>
          match after (lit "NaN") s, after (lit "Infinity") s, after (lit "-Infinity") s with
          | Some rest, _, _ => Some (VFloat (lit "NaN"), rest)
          | _, Some rest, _ => Some (VFloat (lit "Infinity"), rest)
          | _, _, Some rest => Some (VFloat (lit "-Infinity"), rest)
          | _, _, _ => match_number s
          end
        end
    end
  end
with array_items (fuel : nat) (s : str) : option (list value * str) :=
  match fuel with
  | O => None
  | S fuel =>
    match scan_once fuel s with
    | None => None
    | Some (v, r) =>
      match skip_ws r with
      | [] => None
      | c :: r' =>
        if c =? 93 then Some ([v], r')
        else if c =? 44 then
          match array_items fuel (skip_ws r') with
          | Some (vs, rest) => Some (v :: vs, rest)
          | None => None
          end
        else None
      end
    end
  end
with object_items (fuel : nat) (s : str) : option (list (str * value) * str) :=
  match fuel with
  | O => None
  | S fuel =>
    match s with
    | [] => None
    | q :: r =>
      if q =? 34 then
        match scanstring r with
        | None => None
        | Some (k, r1) =>
          match skip_ws r1 with
          | [] => None
          | c :: r2 =>
            if c =? 58 then
              match scan_once fuel (skip_ws r2) with
              | None => None
              | Some (v, r3) =>
                match skip_ws r3 with
                | [] => None
                | c' :: r4 =>
                  if c' =? 125 then Some ([(k, v)], r4)
                  else if c' =? 44 then
                    match object_items fuel (skip_ws r4) with
                    | Some (kvs, rest) => Some ((k, v) :: kvs, rest)
                    | None => None
                    end
                  else None
                end
              end
            else None
          end
        end
      else None
    end
  end.

(** [json.loads(s)]: one value, surrounded by whitespace only. *)
Definition json_loads (s : str) : outcome value :=
  match scan_once (2 * length s + 2) (skip_ws s) with
  | Some (v, r) => if is_empty (skip_ws r) then Returns v else Raises JSONDecodeError
  | None => Raises JSONDecodeError
  end.

(** ** Built-in string functions *)

Section Builtins.
Context `{Runtime}.

(** [s.upper()] *)
Definition upper (s : str) : str := flat_map to_upper_full s.

(** [s.isdigit()]: every character is a digit and there is at least one. *)
Definition isdigit (s : str) : bool := negb (is_empty s) && forallb is_digit s.

(** Whitespace and digits as [int] sees them: an ASCII character is taken
    as it is, another one through the character database. *)
Definition int_space (c : N) : bool :=
  if c <? 127 then ((9 <=? c) && (c <=? 13)) || (c =? 32) else is_space c.

Definition int_digit (c : N) : option N :=
  if c <? 127 then (if is_digit09 c then Some (c - 48) else None)
  else to_decimal c.

(** The digits after a first one; an underscore must stand between two
    digits.  Gives the value and what follows the number. *)
Fixpoint more_digits (acc : Z) (s : str) : option (Z * str) :=
  match s with
  | [] => Some (acc, [])
  | c :: r =>
    match int_digit c with
    | Some d => more_digits (acc * 10 + Z.of_N d) r
    | None =>
      if c =? 95 then
        match r with
        | [] => None
        | c2 :: r2 =>
          match int_digit c2 with
          | Some d => more_digits (acc * 10 + Z.of_N d) r2
          | None => None
          end
        end
      else Some (acc, s)
    end
  end.

(** [int(s)] in base 10: whitespace, an optional sign, digits,
    whitespace; [ValueError] otherwise. *)
Definition int (s : str) : outcome Z :=
  let s1 := drop_while int_space s in
  let '(neg, s2) :=
    match s1 with
    | c :: r => if c =? 43 then (false, r) else if c =? 45 then (true, r) else (false, s1)
    | [] => (false, s1)
    end in
  match s2 with
  | [] => Raises ValueError
  | c :: r =>
    match int_digit c with
    | None => Raises ValueError
    | Some d =>
      match more_digits (Z.of_N d) r with
      | None => Raises ValueError
      | Some (n, rest) =>
        if forallb int_space rest then Returns (if neg then - n else n)%Z
        else Raises ValueError
      end
    end
  end.
End Builtins.

(** ** The world and the IO monad *)

Inductive prompt :=
| AskOrderId | AskCustomer | AskItemName | AskPrice | AskQuantity | AskChoice.

(** The lines the program prints (their wording is presentation). *)
Inductive notice :=
| ListHeader
| ListEntry (idx : nat) (order_id customer : value)
| ListFooter
| BadChoice
| NegativePrice
| NotAnInteger
| BadQuantity.

Inductive event :=
| Prompt (p : prompt)
| Print (n : notice).

(** A file that exists: its text, or the exception that opening or reading
    it raises.  A file that does not exist is absent from the map. *)
Inductive file :=
| Text (content : str)
| Unreadable (e : exn).

Record world := World {
  files : gmap str file;
  stdin : list str;
  stdout : list event
}.

Definition IO (A : Type) : Type := world -> outcome A * world.

Definition ret {A} (a : A) : IO A := fun w => (Returns a, w).

Definition bind {A B} (m : IO A) (k : A -> IO B) : IO B := fun w =>
  match m w with
  | (Returns a, w') => k a w'
  | (Raises e, w') => (Raises e, w')
  end.

Definition lift {A} (o : outcome A) : IO A := fun w => (o, w).

(** [try: body except (...): handler]; [handler e] is [None] when no
    clause matches [e]. *)
Definition try_except {A} (body : IO A) (handler : exn -> option (IO A)) : IO A := fun w =>
  match body w with
  | (Returns a, w') => (Returns a, w')
  | (Raises e, w') =>
    match handler e with
    | Some h => h w'
    | None => (Raises e, w')
    end
  end.

Declare Scope io_scope.
Delimit Scope io_scope with io.
Notation "x <- m ;; k" := (bind m (fun x => k))
  (at level 100, m at next level, right associativity) : io_scope.
Notation "m ;; k" := (bind m (fun _ => k))
  (at level 100, right associativity) : io_scope.
Local Open Scope io_scope.

(** The world after [input(p)] took a line and left [rest]. *)
Definition asked (p : prompt) (rest : list str) (w : world) : world :=
  World (files w) rest (stdout w ++ [Prompt p]).

(** The world after [print(...)]. *)
Definition printed (n : notice) (w : world) : world :=
  World (files w) (stdin w) (stdout w ++ [Print n]).

(** [input(p)]: the next line, without its newline; [EOFError] at the end
    of input. *)
Definition input (p : prompt) : IO str := fun w =>
  match stdin w with
  | [] => (Raises EOFError, asked p [] w)
  | line :: rest => (Returns line, asked p rest w)
  end.

Definition print (n : notice) : IO unit := fun w => (Returns tt, printed n w).

(** [open(filename, "r").read()] *)
Definition read_text (filename : str) : IO str := fun w =>
  match files w !! filename with
  | None => (Raises FileNotFoundError, w)
  | Some (Unreadable e) => (Raises e, w)
  | Some (Text content) => (Returns content, w)
  end.

(** [open(filename, "w").write(content)] *)
Definition write_text (filename : str) (content : str) : IO unit := fun w =>
  (Returns tt, World (<[filename := Text content]> (files w)) (stdin w) (stdout w)).

(** ** order_manager.py *)

Definition INPUT_FILE : str := lit "orders.json".
Definition OUTPUT_FILE : str := lit "output_orders.json".

Definition k_order_id : str := lit "order_id".
Definition k_customer : str := lit "customer".
Definition k_items : str := lit "items".
Definition k_name : str := lit "name".
Definition k_price : str := lit "price".
Definition k_quantity : str := lit "quantity".

(** What the operations return to [main] (the text is presentation). *)
Inductive message :=
| Duplicate (order_id : str)
| NeedItem
| Added (order_id : str)
| NothingPending
| Cancelled
| Dispatched (order_id : value).

(** The integer a value stands for in arithmetic ([bool] is an [int]). *)
Definition as_int (v : value) : option Z :=
  match v with
  | VInt z => Some z
  | VBool b => Some (if b then 1 else 0)%Z
  | _ => None
  end.

(** [for item in v]: the elements of a list, the keys of a dict, the
    characters of a string. *)
Definition iterate (v : value) : option (list value) :=
  match v with
  | VList l => Some l
  | VDict d => Some (map (fun kv => VStr (fst kv)) d)
  | VStr s => Some (map (fun c => VStr [c]) s)
  | _ => None
  end.

(** [item["price"] * item["quantity"]], when both are integers. *)
Definition subtotal (item : value) : option Z :=
  match getitem item k_price, getitem item k_quantity with
  | Returns p, Returns q =>
    match as_int p, as_int q with
    | Some x, Some y => Some (x * y)%Z
    | _, _ => None
    end
  | _, _ => None
  end.

(** [calculate_order_total] (lines 25-27).  [sum] starts from 0 and adds the
    subtotals from left to right.  [None]: the run leaves integer
    arithmetic (Python raises, or computes with floats or sequences). *)
Definition calculate_order_total (order : value) : option Z :=
  match getitem order k_items with
  | Returns its =>
    match iterate its with
    | Some l =>
      fold_left (fun acc item =>
                   match acc, subtotal item with
                   | Some a, Some x => Some (a + x)%Z
                   | _, _ => None
                   end) l (Some 0%Z)
    | None => None
    end
  | Raises _ => None
  end.

Section Program.
Context `{Runtime}.

(** [load_data] (lines 7-16) *)
Definition load_data (filename : str) : IO value :=
  try_except
    (content <- read_text filename ;;
     let content := strip content in
     if is_empty content then ret (VList [])
     else lift (json_loads content))
    (fun e =>
       match e with
       | FileNotFoundError | JSONDecodeError => Some (ret (VList []))
       | _ => None
       end).

(** [save_orders] (lines 19-22) *)
Definition save_orders (filename : str) (orders : list value) : IO unit :=
  write_text filename (json_dumps (VList orders)).

(** [any(order["order_id"] == order_id for order in orders)] (line 67) *)
Fixpoint any_order_id (orders : list value) (order_id : str) : outcome bool :=
  match orders with
  | [] => Returns false
  | order :: rest =>
    match getitem order k_order_id with
    | Raises e => Raises e
    | Returns v => if eq_str v order_id then Returns true else any_order_id rest order_id
    end
  end.

(** The item ([name], [price], [quantity]) built at line 99. *)
Definition make_item (name : str) (price quantity : Z) : value :=
  VDict [(k_name, VStr name); (k_price, VInt price); (k_quantity, VInt quantity)].

(** The three loops of [add_order] (lines 73-99), each reading the unread
    lines [lines]: the item loop, the price loop and the quantity loop. *)
Fixpoint item_loop (lines : list str) (items : list value) (w : world)
  {struct lines} : outcome (list value) * world :=
  match lines with
  | [] => (Raises EOFError, asked AskItemName [] w)
  | line :: rest =>
    let w := asked AskItemName rest w in
    let name := strip line in
    if is_empty name then (Returns items, w)
    else price_loop rest name items w
  end
with price_loop (lines : list str) (name : str) (items : list value) (w : world)
  {struct lines} : outcome (list value) * world :=
  match lines with
  | [] => (Raises EOFError, asked AskPrice [] w)
  | line :: rest =>
    let w := asked AskPrice rest w in
    match int (strip line) with
    | Returns price =>
      if (price <? 0)%Z then price_loop rest name items (printed NegativePrice w)
      else quantity_loop rest name price items w
    | Raises ValueError => price_loop rest name items (printed NotAnInteger w)
    | Raises e => (Raises e, w)
    end
  end
with quantity_loop (lines : list str) (name : str) (price : Z) (items : list value)
  (w : world) {struct lines} : outcome (list value) * world :=
  match lines with
  | [] => (Raises EOFError, asked AskQuantity [] w)
  | line :: rest =>
    let w := asked AskQuantity rest w in
    match int (strip line) with
    | Returns quantity =>
      if (quantity <=? 0)%Z then quantity_loop rest name price items (printed BadQuantity w)
      else item_loop rest (items ++ [make_item name price quantity]) w
    | Raises ValueError => quantity_loop rest name price items (printed NotAnInteger w)
    | Raises e => (Raises e, w)
    end
  end.

(** [add_order] (lines 64-107).  The result carries the list [orders] as
    the call leaves it. *)
Definition add_order (orders : list value) : IO (message * list value) :=
  raw <- input AskOrderId ;;
  let order_id := upper (strip raw) in
  dup <- lift (any_order_id orders order_id) ;;
  if dup : bool then ret (Duplicate order_id, orders)
  else
    raw <- input AskCustomer ;;
    let customer := strip raw in
    items <- (fun w => item_loop (stdin w) [] w) ;;
    if is_empty items then ret (NeedItem, orders)
    else
      let new_order :=
        VDict [(k_order_id, VStr order_id); (k_customer, VStr customer);
               (k_items, VList items)] in
      let orders := orders ++ [new_order] in
      save_orders INPUT_FILE orders ;;
      ret (Added order_id, orders).

(** The listing of lines 116-117. *)
Fixpoint print_pending (idx : nat) (orders : list value) : IO unit :=
  match orders with
  | [] => ret tt
  | order :: rest =>
    order_id <- lift (getitem order k_order_id) ;;
    customer <- lift (getitem order k_customer) ;;
    print (ListEntry idx order_id customer) ;;
    print_pending (S idx) rest
  end.

(** The test of lines 124-128: the choice is refused. *)
Definition refused (choice : str) (orders : list value) : outcome bool :=
  if negb (isdigit choice) then Returns true
  else
    match int choice with
    | Raises e => Raises e
    | Returns k => Returns ((k <? 1)%Z || (Z.of_nat (length orders) <? k)%Z)
    end.

(** [l.pop(i)]: a negative index counts from the end. *)
Definition pop (l : list value) (i : Z) : outcome (value * list value) :=
  let j := (if i <? 0 then i + Z.of_nat (length l) else i)%Z in
  if (j <? 0)%Z then Raises IndexError
  else
    match l !! Z.to_nat j with
    | Some x => Returns (x, delete (Z.to_nat j) l)
    | None => Raises IndexError
    end.

(** [v.append(x)]: only a list has the method. *)
Definition append (v : value) (x : value) : outcome (list value) :=
  match v with
  | VList l => Returns (l ++ [x])
  | _ => Raises AttributeError
  end.

(** Lines 132-141: the accepted choice is carried out. *)
Definition dispatch (orders : list value) (choice : str)
  : IO (message * option value * list value) :=
  k <- lift (int choice) ;;
  let index := (k - 1)%Z in
  popped <- lift (pop orders index) ;;
  let order := fst popped in
  let orders := snd popped in
  completed_orders <- load_data OUTPUT_FILE ;;
  completed_orders <- lift (append completed_orders order) ;;
  save_orders INPUT_FILE orders ;;
  save_orders OUTPUT_FILE completed_orders ;;
  order_id <- lift (getitem order k_order_id) ;;
  ret (Dispatched order_id, Some order, orders).

(** The loop of lines 120-141 over the unread lines. *)
Fixpoint choice_loop (orders : list value) (lines : list str) (w : world)
  {struct lines} : outcome (message * option value * list value) * world :=
  match lines with
  | [] => (Raises EOFError, asked AskChoice [] w)
  | line :: rest =>
    let w := asked AskChoice rest w in
    let choice := strip line in
    if is_empty choice then (Returns (Cancelled, None, orders), w)
    else
      match refused choice orders with
      | Raises e => (Raises e, w)
      | Returns true => choice_loop orders rest (printed BadChoice w)
      | Returns false => dispatch orders choice w
      end
  end.

(** [process_order] (lines 110-141).  The result is the message, the
    dispatched order if any, and the list [orders] as the call leaves
    it. *)
Definition process_order (orders : list value)
  : IO (message * option value * list value) :=
  if is_empty orders then ret (NothingPending, None, orders)
  else
    print ListHeader ;;
    print_pending 1 orders ;;
    print ListFooter ;;
    (fun w => choice_loop orders (stdin w) w).
End Program.

(** ** A runtime to compute with *)

Definition latin1_upper (c : N) : str :=
  if (97 <=? c) && (c <=? 122) then [c - 32]
  else if c =? 181 then [924]
  else if c =? 223 then [83; 83]
  else if (224 <=? c) && (c <=? 254) && negb (c =? 247) then [c - 32]
  else if c =? 255 then [376]
  else [c].

Definition latin1_isdigit (c : N) : bool :=
  is_digit09 c || (c =? 178) || (c =? 179) || (c =? 185).

Definition latin1_decimal (c : N) : option N :=
  if is_digit09 c then Some (c - 48) else None.

(** The character tables on U+0000..U+00FF; a float is printed as it was
    read.  Beyond U+00FF a character is taken to have no case and no
    digit value, so the instance is to be used on Latin-1 text only. *)
Definition latin1 : Runtime := {|
  to_upper_full := latin1_upper;
  is_digit := latin1_isdigit;
  to_decimal := latin1_decimal;
  float_repr := fun l => l
|}.


(** ** The report and the menu loop *)

(** What the report and [main] put on the screen, next to what the
    operations show (the wording is presentation). *)
Inductive shown :=
| Operation (e : event)          (* a prompt or a line of [add_order] or [process_order] *)
| Menu                           (* lines 147-152 *)
| AskMenu                        (* the prompt of line 153 *)
| Result (m : message)           (* lines 160 and 165 *)
| DetailHeading                  (* line 167 *)
| InvalidChoice                  (* line 172 *)
| Title (title : str)            (* lines 32-34 *)
| OrderNumber (idx : nat)        (* line 37 *)
| OrderIdLine (v : value)        (* line 46 *)
| CustomerLine (v : value)       (* line 47 *)
| Rule                           (* lines 48, 50 and 59 *)
| Columns                        (* line 49 *)
| ItemRow (name price quantity : value) (amount : Z)   (* lines 55-58 *)
| Total (total : Z)              (* line 60 *)
| DoubleRule.                    (* lines 41 and 61 *)

Record console := Console {
  disk : gmap str file;
  keyboard : list str;
  screen : list shown
}.

(** How a run ends: as Python ends it, or beyond what is modelled (it
    computes with a float, multiplies or adds values that are not
    integers, or hands [add_order] or [process_order] a document that is
    not a list). *)
Inductive ending (A : Type) :=
| Ends (o : outcome A)
| Beyond.
Arguments Ends {A} o.
Arguments Beyond {A}.

Definition Screen (A : Type) : Type := console -> ending A * console.

Definition done {A} (a : A) : Screen A := fun s => (Ends (Returns a), s).

Definition next {A B} (m : Screen A) (k : A -> Screen B) : Screen B := fun s =>
  match m s with
  | (Ends (Returns a), s') => k a s'
  | (Ends (Raises e), s') => (Ends (Raises e), s')
  | (Beyond, s') => (Beyond, s')
  end.

Definition beyond {A} : Screen A := fun s => (Beyond, s).

(** An expression that returns or raises. *)
Definition eval {A} (o : outcome A) : Screen A := fun s => (Ends o, s).

Declare Scope screen_scope.
Delimit Scope screen_scope with screen.
Notation "x <- m ;; k" := (next m (fun x => k))
  (at level 100, m at next level, right associativity) : screen_scope.
Notation "m ;; k" := (next m (fun _ => k))
  (at level 100, right associativity) : screen_scope.

(** [print(...)] *)
Definition show (l : shown) : Screen unit := fun s =>
  (Ends (Returns tt), Console (disk s) (keyboard s) (screen s ++ [l])).

(** The [input] of line 153. *)
Definition ask : Screen str := fun s =>
  match keyboard s with
  | [] => (Ends (Raises EOFError), Console (disk s) [] (screen s ++ [AskMenu]))
  | line :: rest => (Ends (Returns line), Console (disk s) rest (screen s ++ [AskMenu]))
  end.

(** A call of [load_data], [add_order] or [process_order]: it runs on the
    files and the unread lines, and what it shows goes to the screen. *)
Definition call {A} (m : IO A) : Screen A := fun s =>
  match m (World (disk s) (keyboard s) []) with
  | (o, w) => (Ends o, Console (files w) (stdin w) (screen s ++ map Operation (stdout w)))
  end.

(** [bool(v)]; the float a literal denotes is not computed. *)
Definition truth (v : value) : Screen bool :=
  match v with
  | VNone => done false
  | VBool b => done b
  | VInt z => done (negb (z =? 0)%Z)
  | VFloat _ => beyond
  | VStr s => done (negb (is_empty s))
  | VList l => done (negb (is_empty l))
  | VDict d => done (negb (is_empty d))
  end.

(** [iter(v)]: what has no elements to give raises [TypeError]. *)
Definition iter (v : value) : outcome (list value) :=
  match iterate v with
  | Some l => Returns l
  | None => Raises TypeError
  end.

(** The titles of lines 30 and 168. *)
Definition REPORT_TITLE : str := [35330; 21934; 22577; 34920].
Definition DISPATCH_TITLE : str := [20986; 39184; 35330; 21934].

Section Report.
Local Open Scope screen_scope.

(** The loop of lines 52-58; [total] is the total so far. *)
Fixpoint item_rows (items : list value) (total : Z) : Screen Z :=
  match items with
  | [] => done total
  | item :: rest =>
    price <- eval (getitem item k_price) ;;
    quantity <- eval (getitem item k_quantity) ;;
    match as_int price, as_int quantity with
    | Some p, Some q =>
      let amount := (p * q)%Z in
      let total := (total + amount)%Z in
      name <- eval (getitem item k_name) ;;
      show (ItemRow name price quantity amount) ;;
      item_rows rest total
    | _, _ => beyond
    end
  end.

(** [_print_single_order] (lines 44-61) *)
Definition _print_single_order (order : value) : Screen unit :=
  order_id <- eval (getitem order k_order_id) ;;
  show (OrderIdLine order_id) ;;
  customer <- eval (getitem order k_customer) ;;
  show (CustomerLine customer) ;;
  show Rule ;;
  show Columns ;;
  show Rule ;;
  items <- eval (getitem order k_items) ;;
  items <- eval (iter items) ;;
  total <- item_rows items 0 ;;
  show Rule ;;
  show (Total total) ;;
  show DoubleRule.

(** The loop of lines 36-38. *)
Fixpoint order_blocks (idx : nat) (orders : list value) : Screen unit :=
  match orders with
  | [] => done tt
  | order :: rest =>
    show (OrderNumber idx) ;;
    _print_single_order order ;;
    order_blocks (S idx) rest
  end.

(** [print_order_report] (lines 30-41) *)
Definition print_order_report (data : value) (title : str) (single : bool)
  : Screen unit :=
  show (Title title) ;;
  (if negb single then
     orders <- eval (iter data) ;;
     order_blocks 1 orders
   else _print_single_order data) ;;
  show DoubleRule.
End Report.

Section Main.
Context `{Runtime}.
Local Open Scope screen_scope.

(** The loop of [main] goes on, or is left. *)
Inductive flow := Continue | Break.

(** The branches of lines 156-172, for the choice typed and the document
    loaded. *)
Definition serve (choice : str) (orders : value) : Screen flow :=
  if is_empty choice then done Break
  else if bool_decide (choice = lit "1") then
    match orders with
    | VList orders =>
      r <- call (add_order orders) ;;
      show (Result (fst r)) ;;
      done Continue
    | _ => beyond
    end
  else if bool_decide (choice = lit "2") then
    print_order_report orders REPORT_TITLE false ;;
    done Continue
  else if bool_decide (choice = lit "3") then
    match orders with
    | VList orders =>
      r <- call (process_order orders) ;;
      show (Result (fst (fst r))) ;;
      match snd (fst r) with
      | None => done Continue
      | Some processed_order =>
        shows <- truth processed_order ;;
        if shows : bool then
          show DetailHeading ;;
          print_order_report processed_order DISPATCH_TITLE true ;;
          done Continue
        else done Continue
      end
    | _ => beyond
    end
  else if bool_decide (choice = lit "4") then done Break
  else
    show InvalidChoice ;;
    done Continue.

(** One turn of the loop of [main] (lines 147-172). *)
Definition turn : Screen flow :=
  show Menu ;;
  raw <- ask ;;
  let choice := strip raw in
  orders <- call (load_data INPUT_FILE) ;;
  serve choice orders.

(** [main] (lines 144-172): [fuel] bounds the turns of the loop, and
    [None] says that it did not suffice. *)
Fixpoint main (fuel : nat) (s : console) : option (ending unit * console) :=
  match fuel with
  | O => None
  | S fuel =>
    match turn s with
    | (Ends (Returns Continue), s') => main fuel s'
    | (Ends (Returns Break), s') => Some (Ends (Returns tt), s')
    | (Ends (Raises e), s') => Some (Ends (Raises e), s')
    | (Beyond, s') => Some (Beyond, s')
    end
  end.
End Main.
(** * Properties *)

Arguments strip : simpl never.
Arguments upper : simpl never.
Arguments int : simpl never.
Arguments isdigit : simpl never.
Arguments json_loads : simpl never.
Arguments json_dumps : simpl never.

(** An order that the listing of [process_order] can print: it has an
    [order_id] and a [customer]. *)
Definition listed (order : value) : bool :=
  match getitem order k_order_id, getitem order k_customer with
  | Returns _, Returns _ => true
  | _, _ => false
  end.

(** An order that line 67 can compare: it has an [order_id]. *)
Definition has_order_id (order : value) : bool :=
  match getitem order k_order_id with
  | Returns _ => true
  | Raises _ => false
  end.

(** The records of the data model, and the values that stand for them. *)
Record Item := { name : str; price : Z; quantity : Z }.
Record Order := { order_id : str; customer : str; items : list Item }.

Definition item_value (i : Item) : value :=
  make_item (name i) (price i) (quantity i).

Definition order_value (o : Order) : value :=
  VDict [(k_order_id, VStr (order_id o)); (k_customer, VStr (customer o));
         (k_items, VList (map item_value (items o)))].

(** The total as the specification words it: the sum over the items of
    price times quantity. *)
Fixpoint spec_total (l : list Item) : Z :=
  match l with
  | [] => 0
  | i :: r => price i * quantity i + spec_total r
  end%Z.

(** A line that the selection loop of [process_order] refuses and asks
    again for. *)
Definition refused_line `{Runtime} (orders : list value) (line : str) : Prop :=
  strip line <> [] /\ refused (strip line) orders = Returns true.

(** A value that [json.dump] writes and [json.loads] reads back as it was:
    no float in it, and no key twice in a dict. *)
Inductive plain : value -> Prop :=
| plain_none : plain VNone
| plain_bool b : plain (VBool b)
| plain_int z : plain (VInt z)
| plain_str s : plain (VStr s)
| plain_list l : Forall plain l -> plain (VList l)
| plain_dict d :
    NoDup (map fst d) -> Forall (fun kv => plain (snd kv)) d -> plain (VDict d).

(** What may follow a value in a document that [json.dump] wrote: the end,
    a comma or a newline. *)
Definition stops (rest : str) : bool :=
  match rest with
  | [] => true
  | c :: _ => (c =? 44) || (c =? 10)
  end.

(** The digits [repr] writes: a single 0, or a first digit that is not 0. *)
Definition canonical (u : uint) : bool :=
  match u with
  | Nil => false
  | D0 Nil => true
  | D0 _ => false
  | _ => true
  end.

(** The first character of a value in a document. *)
Definition value_start (c : N) : bool :=
  (c =? 34) || (c =? 123) || (c =? 91) || (c =? 110) || (c =? 116) || (c =? 102)
  || (c =? 45) || is_digit09 c.

(** An item as the loops of [add_order] build it: a name that is not empty,
    a price that is not negative and a quantity that is positive. *)
Definition valid_item (v : value) : Prop :=
  exists name price quantity,
    v = make_item name price quantity
    /\ name <> [] /\ (0 <= price)%Z /\ (0 < quantity)%Z.



(** The [order_id] of each pending order, as subscripting gives it. *)
Definition order_ids (orders : list value) : list (outcome value) :=
  map (fun o => getitem o k_order_id) orders.

(** The order that [add_order] builds at line 104. *)
Definition new_order (order_id customer : str) (items : list value) : value :=
  VDict [(k_order_id, VStr order_id); (k_customer, VStr customer);
         (k_items, VList items)].

Ltac io := unfold bind, ret, lift, print, input, try_except; simpl.

(** The row of the report for an item, and the lines for an order. *)
Definition item_row (i : Item) : shown :=
  ItemRow (VStr (name i)) (VInt (price i)) (VInt (quantity i)) (price i * quantity i).

Definition block (o : Order) : list shown :=
  [OrderIdLine (VStr (order_id o)); CustomerLine (VStr (customer o)); Rule; Columns; Rule]
  ++ map item_row (items o)
  ++ [Rule; Total (spec_total (items o)); DoubleRule].

Fixpoint numbered_blocks (idx : nat) (orders : list Order) : list shown :=
  match orders with
  | [] => []
  | o :: rest => OrderNumber idx :: block o ++ numbered_blocks (S idx) rest
  end.

(** A row that shows an item: its name, price and quantity as subscripting
    gives them, and its subtotal. *)
Definition row_of (item : value) (row : shown) : Prop :=
  exists name price quantity amount,
    row = ItemRow name price quantity amount
    /\ getitem item k_name = Returns name
    /\ getitem item k_price = Returns price
    /\ getitem item k_quantity = Returns quantity
    /\ subtotal item = Some amount.




Ltac scr := unfold next, done, eval, show, beyond; simpl.

(** A step that leaves the files and the unread input alone. *)
Definition frame {A} (m : Screen A) : Prop :=
  forall s, disk (snd (m s)) = disk s /\ keyboard (snd (m s)) = keyboard s.

(** A step that only reads input: what is unread after it is an end part
    of what was unread before. *)
Definition reads {A} (m : Screen A) : Prop :=
  forall s, keyboard (snd (m s)) `suffix_of` keyboard s.






(** ** Reading back what [json.dump] wrote *)

(** Induction on a value, with the elements of a list and the entries of a
    dict as induction hypotheses. *)
Lemma value_nested_ind (P : value -> Prop) :
  P VNone -> (forall b, P (VBool b)) -> (forall z, P (VInt z)) ->
  (forall l, P (VFloat l)) -> (forall s, P (VStr s)) ->
  (forall l, Forall P l -> P (VList l)) ->
  (forall d, Forall (fun kv => P (snd kv)) d -> P (VDict d)) ->
  forall v, P v.
Proof.
  intros HN HB HI HF HS HL HD.
  fix IH 1.
  intros [ |b|z|l|s|l|d]; [apply HN|apply HB|apply HI|apply HF|apply HS|..].
  - apply HL. induction l as [|x l IHl]; constructor; [apply IH | apply IHl].
  - apply HD. induction d as [|[k x] d IHd]; constructor; [apply IH | apply IHd].
Qed.

Lemma skip_ws_start (c : N) (s : str) : json_ws c = false -> skip_ws (c :: s) = c :: s.
Proof. intros Hc. simpl. by rewrite Hc. Qed.

Lemma skip_ws_indent (n : nat) (s : str) : skip_ws (repeat 32 n ++ s) = skip_ws s.
Proof. induction n; simpl; auto. Qed.

Lemma skip_ws_newline_indent (level : nat) (s : str) :
  skip_ws (newline_indent level ++ s) = skip_ws s.
Proof. unfold newline_indent. simpl. apply skip_ws_indent. Qed.

Lemma skip_ws_length (s : str) : (length (skip_ws s) <= length s)%nat.
Proof. induction s as [|c s IH]; simpl; [lia|]. destruct (json_ws c); simpl; lia. Qed.

Lemma length_newline_indent (level : nat) :
  length (newline_indent level) = S (4 * level).
Proof. unfold newline_indent. simpl. by rewrite repeat_length. Qed.

(** *** Strings *)

Lemma hex4_low (c : N) :
  c < 32 -> hex4 48 48 (hex_digit (c / 16)) (hex_digit (c mod 16)) = Some c.
Proof.
  intros Hc.
  pose (ok := fun c => match hex4 48 48 (hex_digit (c / 16)) (hex_digit (c mod 16)) with
                       | Some x => x =? c
                       | None => false
                       end).
  assert (Hall : forallb ok (map N.of_nat (seq 0 32)) = true) by (vm_compute; reflexivity).
  rewrite forallb_forall in Hall.
  assert (Hok : ok c = true).
  { apply Hall, in_map_iff. exists (N.to_nat c). split; [lia|]. apply in_seq. lia. }
  unfold ok in Hok.
  destruct (hex4 48 48 (hex_digit (c / 16)) (hex_digit (c mod 16))); [|done].
  by apply N.eqb_eq in Hok as ->.
Qed.

Lemma scanstring_u (h1 h2 h3 h4 uni : N) (r : str) :
  hex4 h1 h2 h3 h4 = Some uni -> is_high_surrogate uni = false ->
  scanstring (92 :: 117 :: h1 :: h2 :: h3 :: h4 :: r) = prepend uni (scanstring r).
Proof.
  intros Hh Hs. cbn [scanstring N.eqb Pos.eqb]. rewrite Hh, Hs. simpl andb.
  by destruct r as [|? [|? [|? [|? [|? [|? ?]]]]]].
Qed.

Lemma scanstring_escape (c : N) (r : str) :
  scanstring (escape_char c ++ r) = prepend c (scanstring r).
Proof.
  unfold escape_char.
  repeat (case N.eqb_spec; [intros ->; reflexivity|intros ?]).
  case N.ltb_spec; intros Hc.
  - change (lit "\u00") with [92; 117; 48; 48]. simpl app.
    apply scanstring_u; [by apply hex4_low|].
    unfold is_high_surrogate. apply andb_false_iff. left. apply N.leb_gt. lia.
  - simpl. repeat (case N.eqb_spec; [done|intros _]).
    case N.ltb_spec; [lia|done].
Qed.

Lemma scanstring_escaped (s rest : str) :
  scanstring (flat_map escape_char s ++ 34 :: rest) = Some (s, rest).
Proof.
  induction s as [|c s IH]; [done|].
  simpl flat_map. rewrite <- app_assoc, scanstring_escape, IH. done.
Qed.

(** *** Numbers *)

Ltac lits :=
  repeat match goal with
         | |- context [lit ?s] =>
             let v := eval vm_compute in (lit s) in change (lit s) with v
         end.

Lemma stops_not_digit (c : N) (rest : str) :
  stops (c :: rest) = true -> is_digit09 c = false.
Proof.
  simpl. intros [->%N.eqb_eq| ->%N.eqb_eq]%orb_true_iff; reflexivity.
Qed.

Lemma span_digits_uint (u : uint) (rest : str) :
  stops rest = true -> span_digits (uint_chars u ++ rest) = (uint_chars u, rest).
Proof.
  intros Hr.
  induction u; simpl; rewrite ?IHu; try reflexivity.
  destruct rest as [|c rest]; [done|]. simpl. by rewrite (stops_not_digit c rest).
Qed.

Lemma chars_uint_chars (u : uint) : chars_uint (uint_chars u) = u.
Proof. induction u; simpl; by rewrite ?IHu. Qed.

Lemma fraction_stops (rest : str) : stops rest = true -> fraction rest = ([], rest).
Proof.
  destruct rest as [|c [|d rest]]; try done.
  simpl. intros [->%N.eqb_eq| ->%N.eqb_eq]%orb_true_iff; reflexivity.
Qed.

Lemma exponent_stops (rest : str) : stops rest = true -> exponent rest = ([], rest).
Proof.
  destruct rest as [|c rest]; try done.
  simpl. intros [->%N.eqb_eq| ->%N.eqb_eq]%orb_true_iff; reflexivity.
Qed.

Lemma canonical_to_uint (p : positive) : canonical (Pos.to_uint p) = true.
Proof.
  pose proof (DecimalPos.Unsigned.to_of (Pos.to_uint p)) as Hn.
  rewrite DecimalPos.Unsigned.of_to in Hn. simpl in Hn.
  pose proof (DecimalPos.Unsigned.to_uint_nonnil p) as Hnil.
  destruct (Pos.to_uint p) as [|u| | | | | | | | | ] eqn:E; try done.
  rewrite unorm_D0 in Hn. unfold unorm in Hn.
  destruct (nzhead u) eqn:En; try done.
  - by inversion Hn.
  - exfalso. by apply (nzhead_nonzero u u0).
Qed.

Lemma match_number_uint (neg : bool) (u : uint) (rest : str) :
  canonical u = true -> stops rest = true ->
  match_number ((if neg then [45] else []) ++ uint_chars u ++ rest)
  = Some (VInt (Z.of_int (if neg then Decimal.Neg u else Decimal.Pos u)), rest).
Proof.
  intros Hu Hr.
  assert (Hint : forall c ip,
    (if c =? 48 then Some ([c], uint_chars ip ++ rest)
     else if (49 <=? c) && (c <=? 57)
          then let '(ds, r) := span_digits (uint_chars ip ++ rest) in Some (c :: ds, r)
          else None) = Some (c :: uint_chars ip, rest) ->
    chars_uint (c :: uint_chars ip) = u ->
    match_number ((if neg then [45] else []) ++ c :: uint_chars ip ++ rest)
    = Some (VInt (Z.of_int (if neg then Decimal.Neg u else Decimal.Pos u)), rest)).
  { intros c ip Hi Hc. unfold match_number.
    destruct neg; simpl app; cbn [N.eqb Pos.eqb].
    - rewrite Hi, (fraction_stops _ Hr), (exponent_stops _ Hr). simpl is_empty.
      simpl andb. by rewrite Hc.
    - destruct (c =? 45) eqn:E45.
      + apply N.eqb_eq in E45 as ->. done.
      + rewrite Hi, (fraction_stops _ Hr), (exponent_stops _ Hr). simpl is_empty.
        simpl andb. by rewrite Hc. }
  destruct u as [|u|u|u|u|u|u|u|u|u|u]; try done; simpl uint_chars;
    (apply Hint; [|simpl; by rewrite chars_uint_chars]); cbn [N.eqb Pos.eqb N.leb N.compare Pos.compare Pos.compare_cont andb];
    rewrite ?(span_digits_uint _ _ Hr); try reflexivity.
  by destruct u.
Qed.

Lemma canonical_to_int (z : Z) :
  exists neg u, canonical u = true
    /\ Z.to_int z = (if neg : bool then Decimal.Neg u else Decimal.Pos u)
    /\ int_repr z = (if neg then [45] else []) ++ uint_chars u.
Proof.
  unfold int_repr. destruct z as [|p|p]; simpl.
  - by exists false, zero.
  - exists false, (Pos.to_uint p). by rewrite canonical_to_uint.
  - exists true, (Pos.to_uint p). by rewrite canonical_to_uint.
Qed.

Lemma scan_once_number (g : nat) (neg : bool) (u : uint) (rest : str) :
  canonical u = true ->
  scan_once (S g) ((if neg then [45] else []) ++ uint_chars u ++ rest)
  = match_number ((if neg then [45] else []) ++ uint_chars u ++ rest).
Proof.
  intros Hu.
  destruct neg, u; try done; lits; cbn -[match_number]; reflexivity.
Qed.

Lemma scan_once_int (g : nat) (z : Z) (rest : str) :
  stops rest = true -> scan_once (S g) (int_repr z ++ rest) = Some (VInt z, rest).
Proof.
  intros Hr. destruct (canonical_to_int z) as (neg & u & Hu & Hz & ->).
  rewrite <- app_assoc, scan_once_number, match_number_uint by done.
  by rewrite <- Hz, DecimalZ.of_to.
Qed.

(** *** Values *)

Lemma value_start_spec (c : N) :
  value_start c = true -> json_ws c = false /\ (c =? 93) = false /\ (c =? 125) = false.
Proof.
  unfold value_start, is_digit09, json_ws. intros Hc.
  repeat (apply orb_true_iff in Hc as [Hc|Hc]);
    try (apply N.eqb_eq in Hc as ->; done).
  apply andb_true_iff in Hc as [H1%N.leb_le H2%N.leb_le].
  repeat split; repeat (apply orb_false_iff; split); apply N.eqb_neq; lia.
Qed.

Lemma dict_set_fresh (k : str) (v : value) (d : list (str * value)) :
  k ∉ map fst d -> dict_set k v d = d ++ [(k, v)].
Proof.
  induction d as [|[k' v'] d IH]; [done|]. simpl. intros Hk.
  apply not_elem_of_cons in Hk as [Hne Hk].
  rewrite bool_decide_false by congruence. by rewrite IH.
Qed.

Lemma dict_of_pairs_nodup (d : list (str * value)) :
  NoDup (map fst d) -> dict_of_pairs d = d.
Proof.
  unfold dict_of_pairs.
  enough (Hgen : forall acc, NoDup (map fst (acc ++ d)) ->
            fold_left (fun d kv => dict_set (fst kv) (snd kv) d) d acc = acc ++ d)
    by (intros Hd; by apply (Hgen [])).
  induction d as [|[k v] d IH]; intros acc Hnd; simpl.
  - by rewrite app_nil_r.
  - rewrite dict_set_fresh.
    + rewrite IH; rewrite <- app_assoc; done.
    + rewrite map_app in Hnd. apply NoDup_app in Hnd as (_ & Hnd & _).
      intros Hin. apply (Hnd k Hin). simpl. apply elem_of_cons. by left.
Qed.

Lemma scan_once_string (g : nat) (r : str) :
  scan_once (S g) (34 :: r)
  = match scanstring r with Some (t, rest) => Some (VStr t, rest) | None => None end.
Proof. reflexivity. Qed.

Lemma scan_once_list (g : nat) (r : str) :
  scan_once (S g) (91 :: r)
  = match skip_ws r with
    | [] => None
    | c' :: r' =>
      if c' =? 93 then Some (VList [], r')
      else match array_items g (c' :: r') with
           | Some (items, rest) => Some (VList items, rest)
           | None => None
           end
    end.
Proof. reflexivity. Qed.

Lemma scan_once_dict (g : nat) (r : str) :
  scan_once (S g) (123 :: r)
  = match skip_ws r with
    | [] => None
    | c' :: r' =>
      if c' =? 125 then Some (VDict [], r')
      else match object_items g (c' :: r') with
           | Some (pairs, rest) => Some (VDict (dict_of_pairs pairs), rest)
           | None => None
           end
    end.
Proof. reflexivity. Qed.

Lemma array_items_S (g : nat) (s : str) :
  array_items (S g) s
  = match scan_once g s with
    | None => None
    | Some (v, r) =>
      match skip_ws r with
      | [] => None
      | c :: r' =>
        if c =? 93 then Some ([v], r')
        else if c =? 44 then
          match array_items g (skip_ws r') with
          | Some (vs, rest) => Some (v :: vs, rest)
          | None => None
          end
        else None
      end
    end.
Proof. reflexivity. Qed.

Lemma object_items_S (g : nat) (r : str) :
  object_items (S g) (34 :: r)
  = match scanstring r with
    | None => None
    | Some (k, r1) =>
      match skip_ws r1 with
      | [] => None
      | c :: r2 =>
        if c =? 58 then
          match scan_once g (skip_ws r2) with
          | None => None
          | Some (v, r3) =>
            match skip_ws r3 with
            | [] => None
            | c' :: r4 =>
              if c' =? 125 then Some ([(k, v)], r4)
              else if c' =? 44 then
                match object_items g (skip_ws r4) with
                | Some (kvs, rest) => Some ((k, v) :: kvs, rest)
                | None => None
                end
              else None
            end
          end
        else None
      end
    end.
Proof. reflexivity. Qed.

Section RoundTrip.
Context `{Runtime}.

Lemma encode_head (level : nat) (v : value) :
  plain v -> exists c r, encode level v = c :: r /\ value_start c = true.
Proof.
  destruct 1 as [ |b|z|s|l _|d _ _]; simpl.
  - by eexists _, _.
  - destruct b; by eexists _, _.
  - destruct (canonical_to_int z) as (neg & u & Hu & _ & ->).
    destruct neg; [by eexists _, _|].
    destruct u; try done; by eexists _, _.
  - by eexists _, _.
  - destruct l; by eexists _, _.
  - destruct d; by eexists _, _.
Qed.

Lemma skip_ws_encode (level : nat) (v : value) (rest : str) :
  plain v -> skip_ws (encode level v ++ rest) = encode level v ++ rest.
Proof.
  intros Hv. destruct (encode_head level v Hv) as (c & r & -> & Hc).
  apply value_start_spec in Hc as (Hc & _). by apply skip_ws_start.
Qed.

(** The decoder returns the value whose text it is given. *)
Definition reads_back (v : value) : Prop :=
  forall level rest g,
    stops rest = true -> (2 * length (encode level v ++ rest) < g)%nat ->
    scan_once g (encode level v ++ rest) = Some (v, rest).

(** The text of the elements after the first, up to the closing bracket. *)
Definition list_tail (level : nat) (l : list value) (rest : str) : str :=
  flat_map (fun q => (44 :: newline_indent (S level)) ++ q) (map (encode (S level)) l)
  ++ newline_indent level ++ 93 :: rest.

Lemma list_tail_stops level l rest : stops (list_tail level l rest) = true.
Proof. by destruct l. Qed.

Lemma list_tail_cons level y l rest :
  list_tail level (y :: l) rest
  = 44 :: newline_indent (S level) ++ encode (S level) y ++ list_tail level l rest.
Proof.
  unfold list_tail. cbn [map flat_map]. rewrite <- !app_assoc. reflexivity.
Qed.

Lemma array_items_encode (level : nat) (rest : str) (l : list value) :
  Forall plain l -> Forall reads_back l ->
  forall x g, plain x -> reads_back x ->
    (2 * length (encode (S level) x ++ list_tail level l rest) + 1 < g)%nat ->
    array_items g (encode (S level) x ++ list_tail level l rest) = Some (x :: l, rest).
Proof.
  intros Hp Hr. revert Hp.
  induction Hr as [|y l Hy _ IH]; intros Hp x g Hpx Hx Hg;
    (destruct g as [|g]; [lia|]); rewrite array_items_S;
    rewrite (Hx (S level) _ g (list_tail_stops _ _ _)) by lia.
  - change (list_tail level [] rest) with (newline_indent level ++ 93 :: rest).
    by rewrite skip_ws_newline_indent.
  - apply Forall_cons in Hp as [Hpy Hp].
    rewrite list_tail_cons in *.
    rewrite skip_ws_start by done. cbn [N.eqb Pos.eqb].
    rewrite skip_ws_newline_indent, skip_ws_encode by done.
    rewrite IH; [done..|].
    rewrite length_app, length_cons, length_app in Hg. lia.
Qed.
(** One entry of a dict, and the text of the entries after the first, up
    to the closing brace. *)
Definition entry (level : nat) (kv : str * value) : str :=
  encode_basestring (fst kv) ++ lit ": " ++ encode (S level) (snd kv).

Definition dict_tail (level : nat) (d : list (str * value)) (rest : str) : str :=
  flat_map (fun q => (44 :: newline_indent (S level)) ++ q) (map (entry level) d)
  ++ newline_indent level ++ 125 :: rest.

Lemma dict_tail_stops level d rest : stops (dict_tail level d rest) = true.
Proof. by destruct d. Qed.

Lemma dict_tail_cons level kv d rest :
  dict_tail level (kv :: d) rest
  = 44 :: newline_indent (S level) ++ entry level kv ++ dict_tail level d rest.
Proof.
  unfold dict_tail. cbn [map flat_map]. rewrite <- !app_assoc. reflexivity.
Qed.

Lemma entry_app level k x (t : str) :
  entry level (k, x) ++ t
  = 34 :: flat_map escape_char k ++ 34 :: 58 :: 32 :: encode (S level) x ++ t.
Proof.
  unfold entry, encode_basestring. lits. cbn [fst snd].
  rewrite <- !app_assoc. cbn [app]. by rewrite <- !app_assoc.
Qed.

Lemma length_entry_app level k x (t : str) :
  (length (encode (S level) x ++ t) + 4 <= length (entry level (k, x) ++ t))%nat.
Proof.
  rewrite entry_app.
  rewrite length_cons, (length_app (flat_map _ _)), !length_cons. lia.
Qed.

Lemma object_items_encode (level : nat) (rest : str) (d : list (str * value)) :
  Forall (fun kv => plain (snd kv)) d -> Forall (fun kv => reads_back (snd kv)) d ->
  forall k x g, plain x -> reads_back x ->
    (2 * length (entry level (k, x) ++ dict_tail level d rest) + 1 < g)%nat ->
    object_items g (entry level (k, x) ++ dict_tail level d rest)
    = Some ((k, x) :: d, rest).
Proof.
  intros Hp Hr. revert Hp.
  induction Hr as [|[k' y] d Hy _ IH]; intros Hp k x g Hpx Hx Hg;
    (destruct g as [|g]; [lia|]);
    match type of Hg with
    | context [entry level (k, x) ++ ?t] =>
        pose proof (length_entry_app level k x t) as Hlen
    end;
    rewrite entry_app, object_items_S, scanstring_escaped;
    rewrite skip_ws_start by done; cbn [N.eqb Pos.eqb];
    change (skip_ws (32 :: ?t)) with (skip_ws t);
    rewrite skip_ws_encode by done;
    rewrite (Hx (S level) _ g (dict_tail_stops _ _ _)) by lia.
  - change (dict_tail level [] rest) with (newline_indent level ++ 125 :: rest).
    by rewrite skip_ws_newline_indent.
  - apply Forall_cons in Hp as [Hpy Hp]. cbn [snd] in *.
    rewrite dict_tail_cons in *.
    rewrite skip_ws_start by done. cbn [N.eqb Pos.eqb].
    rewrite skip_ws_newline_indent.
    rewrite (entry_app level k' y) at 1. rewrite skip_ws_start by done.
    rewrite <- entry_app.
    rewrite IH; [done..|].
    rewrite length_app, length_cons, length_app in Hlen. lia.
Qed.
Lemma encode_list_cons level x l (rest : str) :
  encode level (VList (x :: l)) ++ rest
  = 91 :: newline_indent (S level) ++ encode (S level) x ++ list_tail level l rest.
Proof.
  cbn [encode]. unfold join, list_tail. lits. cbn [map].
  rewrite <- ?app_assoc. cbn [app]. by rewrite <- ?app_assoc.
Qed.

Lemma encode_dict_cons level kv d (rest : str) :
  encode level (VDict (kv :: d)) ++ rest
  = 123 :: newline_indent (S level) ++ entry level kv ++ dict_tail level d rest.
Proof.
  cbn [encode]. unfold join, dict_tail, entry. lits. cbn [map].
  rewrite <- ?app_assoc. cbn [app]. by rewrite <- ?app_assoc.
Qed.

(** Every plain value is read back from its text. *)
Lemma plain_reads_back (v : value) : plain v -> reads_back v.
Proof.
  induction v as [ |b|z|l|s|l IH|d IH] using value_nested_ind;
    intros Hv level rest g Hrest Hg; (destruct g as [|g]; [lia|]).
  - cbn [encode]. lits. reflexivity.
  - destruct b; cbn [encode]; lits; reflexivity.
  - by apply scan_once_int.
  - inversion Hv.
  - cbn [encode]. unfold encode_basestring. cbn [app].
    rewrite <- app_assoc. cbn [app]. by rewrite scan_once_string, scanstring_escaped.
  - inversion_clear Hv as [ | | | |? Hl| ].
    assert (Hrb : Forall reads_back l).
    { apply Forall_forall. intros x Hx.
      rewrite Forall_forall in IH. rewrite Forall_forall in Hl. auto. }
    destruct l as [|x l]; [reflexivity|].
    apply Forall_cons in Hl as [Hx Hl]. apply Forall_cons in Hrb as [Hrx Hrb].
    rewrite encode_list_cons in *. rewrite scan_once_list, skip_ws_newline_indent.
    rewrite skip_ws_encode by done.
    destruct (encode_head (S level) x Hx) as (c & r & Hc & Hs).
    apply value_start_spec in Hs as (_ & Hs & _).
    pose proof (array_items_encode level rest l Hl Hrb x g Hx Hrx) as Ha.
    rewrite Hc in *. cbn [app] in *. rewrite Hs, Ha; [done|].
    rewrite length_cons, length_app in Hg. cbn [length] in *. lia.
  - inversion_clear Hv as [ | | | | |? Hnd Hd].
    assert (Hrb : Forall (fun kv => reads_back (snd kv)) d).
    { apply Forall_forall. intros x Hx.
      rewrite Forall_forall in IH. rewrite Forall_forall in Hd. auto. }
    destruct d as [|[k x] d]; [reflexivity|].
    apply Forall_cons in Hd as [Hx Hd]. apply Forall_cons in Hrb as [Hrx Hrb].
    cbn [snd] in *.
    rewrite encode_dict_cons in *. rewrite scan_once_dict, skip_ws_newline_indent.
    pose proof (object_items_encode level rest d Hd Hrb k x g Hx Hrx) as Ha.
    rewrite entry_app in *. rewrite skip_ws_start by done. cbn [N.eqb Pos.eqb].
    rewrite Ha.
    + by rewrite dict_of_pairs_nodup.
    + rewrite length_cons, length_app in Hg. cbn [length] in *. lia.
Qed.

(** [json.loads(json.dumps(v))] is [v]. *)
Lemma json_loads_dumps (v : value) : plain v -> json_loads (json_dumps v) = Returns v.
Proof.
  intros Hv. unfold json_loads, json_dumps.
  pose proof (plain_reads_back v Hv 0%nat [] (2 * length (encode 0 v) + 2)%nat) as Hr.
  rewrite app_nil_r in Hr.
  pose proof (skip_ws_encode 0 v [] Hv) as Hs. rewrite app_nil_r in Hs.
  rewrite Hs, Hr; [done..|lia].
Qed.
End RoundTrip.
Section Dispatch.
Context `{Runtime}.

Lemma listed_order_value (o : Order) : listed (order_value o) = true.
Proof. reflexivity. Qed.

Lemma print_pending_listed (orders : list value) :
  Forall listed orders ->
  forall idx w, exists out,
    print_pending idx orders w
    = (Returns tt, World (files w) (stdin w) (stdout w ++ out)).
Proof.
  induction 1 as [|order rest Hl _ IH]; intros idx w.
  - exists []. simpl. unfold ret. rewrite app_nil_r. by destruct w.
  - simpl. unfold listed in Hl.
    destruct (getitem order k_order_id) as [a|] eqn:Ea; [|done].
    destruct (getitem order k_customer) as [b|] eqn:Eb; [|done].
    io. destruct (IH (S idx) (printed (ListEntry idx a b) w)) as [out ->].
    exists (Print (ListEntry idx a b) :: out). simpl.
    by rewrite <- app_assoc.
Qed.

(** The loop reads the lines it is given, not the [stdin] of the world it
    starts in (which it overwrites at the first read). *)
Lemma choice_loop_stdin (orders : list value) (lines : list str) fs s1 s2 out :
  choice_loop orders lines (World fs s1 out)
  = choice_loop orders lines (World fs s2 out).
Proof. by destruct lines. Qed.

Lemma choice_loop_refused (orders : list value) (bad lines : list str) :
  Forall (refused_line orders) bad ->
  forall w, exists out,
    choice_loop orders (bad ++ lines) w
    = choice_loop orders lines (World (files w) (stdin w) (stdout w ++ out)).
Proof.
  induction 1 as [|line bad [Hne Hr] _ IH]; intros w.
  - exists []. rewrite app_nil_r. by destruct w.
  - simpl. destruct (strip line) eqn:Es; [done|]. simpl. rewrite Hr.
    destruct (IH (printed BadChoice (asked AskChoice (bad ++ lines) w)))
      as [out ->].
    exists ([Prompt AskChoice; Print BadChoice] ++ out). simpl.
    rewrite <- !app_assoc. apply choice_loop_stdin.
Qed.
(** With something to list, [process_order] prints the listing and enters
    the selection loop; nothing else has changed by then. *)
Lemma process_order_listing (orders : list value) (w : world) :
  orders <> [] -> Forall listed orders ->
  exists out,
    process_order orders w
    = choice_loop orders (stdin w) (World (files w) (stdin w) (stdout w ++ out)).
Proof.
  intros Hne Hl. unfold process_order. destruct orders as [|o os]; [done|].
  cbn [is_empty]. unfold bind at 1. unfold print at 1.
  destruct (print_pending_listed (o :: os) Hl 1%nat (printed ListHeader w)) as [out Hp].
  unfold bind at 1. rewrite Hp. unfold bind, print. simpl.
  exists ([Print ListHeader] ++ out ++ [Print ListFooter]).
  unfold printed. simpl. by rewrite <- !app_assoc.
Qed.

(** [load_data] reads the files and changes nothing. *)
Lemma load_data_world (filename : str) (w : world) :
  load_data filename w = (fst (load_data filename w), w).
Proof.
  unfold load_data, try_except, bind, read_text, lift, ret.
  destruct (files w !! filename) as [[content|e]|]; simpl; [| |done].
  - destruct (is_empty (strip content)); [done|].
    destruct (json_loads (strip content)) as [v|[]]; done.
  - destruct e; done.
Qed.

Lemma load_data_files (filename : str) (w1 w2 : world) :
  files w1 = files w2 ->
  fst (load_data filename w1) = fst (load_data filename w2).
Proof.
  intros Hf. unfold load_data, try_except, bind, read_text, lift, ret. rewrite Hf.
  destruct (files w2 !! filename) as [[content|e]|]; simpl; [| |done].
  - destruct (is_empty (strip content)); [done|].
    destruct (json_loads (strip content)) as [v|[]]; done.
  - destruct e; done.
Qed.


Lemma accepted (choice : str) (orders : list value) (k : Z) :
  isdigit choice = true -> int choice = Returns k ->
  (1 <= k <= Z.of_nat (length orders))%Z ->
  refused choice orders = Returns false.
Proof.
  intros Hd Hi [H1 H2]. unfold refused. rewrite Hd, Hi. simpl. f_equal.
  apply orb_false_iff. split; apply Z.ltb_ge; lia.
Qed.

(** The removal at lines 132-133 is in range. *)
Lemma pop_in_range (orders : list value) (k : Z) :
  (1 <= k <= Z.of_nat (length orders))%Z ->
  exists order, orders !! Z.to_nat (k - 1) = Some order
    /\ pop orders (k - 1) = Returns (order, delete (Z.to_nat (k - 1)) orders).
Proof.
  intros [H1 H2]. unfold pop.
  destruct (Z.ltb_spec (k - 1) 0); [lia|]. destruct (Z.ltb_spec (k - 1) 0); [lia|].
  destruct (lookup_lt_is_Some_2 orders (Z.to_nat (k - 1))) as [order Ho]; [lia|].
  exists order. by rewrite Ho.
Qed.

Lemma isdigit_nonempty (s : str) : isdigit s = true -> s <> [].
Proof. by destruct s. Qed.

(** C7: with no pending order, [process_order] returns the "nothing to
    dispatch" result at once: no prompt, no line read, no file written and
    the list still empty. *)
Theorem process_order_nothing_pending (w : world) :
  process_order [] w = (Returns (NothingPending, None, []), w).
Proof. reflexivity. Qed.

(** C8: in [process_order], a blank selection, after any number of refused
    ones, returns the "cancelled" result with the pending list as it was;
    no file is written and the input is consumed up to the blank line. *)
Theorem process_order_cancelled (orders : list value) (w : world)
    (bad : list str) (blank : str) (rest : list str) :
  orders <> [] -> Forall listed orders ->
  stdin w = bad ++ blank :: rest ->
  Forall (refused_line orders) bad -> strip blank = [] ->
  exists w',
    process_order orders w = (Returns (Cancelled, None, orders), w')
    /\ files w' = files w /\ stdin w' = rest.
Proof.
  intros Hne Hl Hin Hbad Hblank.
  destruct (process_order_listing orders w Hne Hl) as [out ->]. rewrite Hin.
  destruct (choice_loop_refused orders bad (blank :: rest) Hbad
              (World (files w) (bad ++ blank :: rest) (stdout w ++ out))) as [out' ->].
  simpl. rewrite Hblank. simpl. eauto.
Qed.

Lemma print_pending_files (orders : list value) (idx : nat) (w : world) :
  files (snd (print_pending idx orders w)) = files w.
Proof.
  revert idx w. induction orders as [|order orders IH]; intros idx w; [done|].
  simpl. unfold bind, lift, print.
  destruct (getitem order k_order_id); [|done].
  destruct (getitem order k_customer); [|done].
  by rewrite IH.
Qed.

Lemma dispatch_completed (orders orders' : list value) (choice : str) (w w' : world)
    (msg : message) (order : value) :
  dispatch orders choice w = (Returns (msg, Some order, orders'), w') ->
  exists completed,
    fst (load_data OUTPUT_FILE w) = Returns (VList completed)
    /\ files w' !! OUTPUT_FILE
       = Some (Text (json_dumps (VList (completed ++ [order])))).
Proof.
  unfold dispatch. unfold bind at 1, lift at 1.
  destruct (int choice) as [k|]; [|done].
  unfold bind at 1, lift at 1.
  destruct (pop orders (k - 1)) as [[o os]|]; [|done]. cbn [fst snd].
  unfold bind at 1. rewrite load_data_world.
  destruct (fst (load_data OUTPUT_FILE w)) as [v|]; [|done].
  unfold bind, lift, append, save_orders, write_text, ret.
  destruct v; try done. simpl.
  destruct (getitem o k_order_id); [|done].
  intros [= <- <- <- <-]. eexists. split; [done|]. simpl.
  apply lookup_insert_eq.
Qed.

Lemma choice_loop_completed (orders orders' : list value) (lines : list str)
    (w w' : world) (msg : message) (order : value) :
  choice_loop orders lines w = (Returns (msg, Some order, orders'), w') ->
  exists completed,
    fst (load_data OUTPUT_FILE w) = Returns (VList completed)
    /\ files w' !! OUTPUT_FILE
       = Some (Text (json_dumps (VList (completed ++ [order])))).
Proof.
  revert w. induction lines as [|line lines IH]; intros w; [done|].
  cbn [choice_loop]. destruct (is_empty (strip line)); [done|].
  destruct (refused (strip line) orders) as [[|]|]; [| |done].
  - intros Hloop. destruct (IH _ Hloop) as (completed & Hload & Hfile).
    exists completed. split; [|done]. by rewrite <- Hload; apply load_data_files.
  - intros Hd. destruct (dispatch_completed _ _ _ _ _ _ _ Hd) as (completed & Hload & Hfile).
    exists completed. split; [|done]. by rewrite <- Hload; apply load_data_files.
Qed.

(** C10: when [process_order] dispatches an order, the completed list it
    writes is the one it loads from the completed file during the call,
    with the order appended; the function has no parameter for a completed
    list, so nothing the caller holds takes part. *)
Theorem process_order_completed_from_slot (orders orders' : list value)
    (w w' : world) (msg : message) (order : value) :
  process_order orders w = (Returns (msg, Some order, orders'), w') ->
  exists completed,
    fst (load_data OUTPUT_FILE w) = Returns (VList completed)
    /\ files w' !! OUTPUT_FILE
       = Some (Text (json_dumps (VList (completed ++ [order])))).
Proof.
  unfold process_order. destruct orders as [|o os]; [done|]. cbn [is_empty].
  unfold bind at 1, print at 1. unfold bind at 1.
  pose proof (print_pending_files (o :: os) 1 (printed ListHeader w)) as Hf.
  destruct (print_pending 1 (o :: os) (printed ListHeader w)) as [[[]|e] w1]; [|done].
  unfold bind, print. intros Hloop.
  destruct (choice_loop_completed _ _ _ _ _ _ _ Hloop) as (completed & Hload & Hfile).
  exists completed. split; [|done]. rewrite <- Hload. by apply load_data_files.
Qed.

(** C9 (what the code does): a selection made of a character that
    [str.isdigit] accepts and [int] cannot read, such as the superscript
    two U+00B2, is neither accepted nor asked again: [process_order]
    raises [ValueError].  No file is written. *)
Theorem process_order_superscript_digit (orders : list value) (w : world)
    (rest : list str) :
  is_digit 178 = true -> to_decimal 178 = None ->
  orders <> [] -> Forall listed orders ->
  stdin w = [178] :: rest ->
  exists w', process_order orders w = (Raises ValueError, w')
    /\ files w' = files w /\ stdin w' = rest.
Proof.
  intros Hd Hn Hne Hl Hin.
  destruct (process_order_listing orders w Hne Hl) as [out ->]. rewrite Hin.
  cbn [choice_loop]. change (strip [178]) with [178]. cbn [is_empty].
  unfold refused, isdigit, int. simpl. rewrite Hd. simpl.
  unfold int_digit. simpl. rewrite Hn. eauto.
Qed.
End Dispatch.

Section AddOrder.
Context `{Runtime}.

Lemma any_order_id_found (orders : list value) (order : value) (id : str) :
  Forall has_order_id orders -> order ∈ orders ->
  getitem order k_order_id = Returns (VStr id) ->
  any_order_id orders id = Returns true.
Proof.
  intros Hall Hin Hid. induction Hall as [|o orders Ho _ IH]; [by inversion Hin|].
  simpl. unfold has_order_id in Ho.
  destruct (getitem o k_order_id) as [v|] eqn:Ev; [|done].
  destruct (eq_str v id) eqn:Eq; [done|].
  apply elem_of_cons in Hin as [->|Hin]; [|by apply IH].
  rewrite Hid in Ev. injection Ev as <-. simpl in Eq.
  by rewrite bool_decide_true in Eq.
Qed.

(** The loops of [add_order] write no file. *)
Lemma loops_files (lines : list str) :
  (forall items w, files (snd (item_loop lines items w)) = files w)
  /\ (forall name items w, files (snd (price_loop lines name items w)) = files w)
  /\ (forall name price items w,
        files (snd (quantity_loop lines name price items w)) = files w).
Proof.
  induction lines as [|line lines (IHi & IHp & IHq)]; [done|].
  split_and!; intros; simpl.
  - destruct (is_empty (strip line)); [done|]. by rewrite IHp.
  - destruct (int (strip line)) as [p|[]]; try done.
    + destruct (p <? 0)%Z; [by rewrite IHp|by rewrite IHq].
    + by rewrite IHp.
  - destruct (int (strip line)) as [q|[]]; try done.
    + destruct (q <=? 0)%Z; [by rewrite IHq|by rewrite IHi].
    + by rewrite IHq.
Qed.

(** The loops never lose an item, and the item loop returns the list it
    started with only when the first name it reads is blank. *)
Lemma loops_grow (lines : list str) :
  (forall items w r w', item_loop lines items w = (Returns r, w') ->
     (r = items /\ exists line rest, lines = line :: rest /\ strip line = [])
     \/ (length items < length r)%nat)
  /\ (forall name items w r w', price_loop lines name items w = (Returns r, w') ->
        (length items < length r)%nat)
  /\ (forall name price items w r w',
        quantity_loop lines name price items w = (Returns r, w') ->
        (length items < length r)%nat).
Proof.
  induction lines as [|line lines (IHi & IHp & IHq)]; [done|].
  split_and!; intros *; simpl.
  - destruct (strip line) eqn:Es; simpl.
    + intros [= <- <-]. left. eauto.
    + intros Hp. right. by eapply IHp.
  - destruct (int (strip line)) as [p|[]]; try done.
    + destruct (p <? 0)%Z; [by apply IHp|by apply IHq].
    + by apply IHp.
  - destruct (int (strip line)) as [q|[]]; try done.
    + destruct (q <=? 0)%Z; [by apply IHq|].
      intros Hi. apply IHi in Hi as [[-> _]|Hi]; rewrite ?length_app in *; simpl in *; lia.
    + by apply IHq.
Qed.

(** Item collection ends with no item exactly when the first item name is
    blank. *)
Lemma item_loop_no_items (lines : list str) (w w' : world) :
  item_loop lines [] w = (Returns [], w') ->
  exists line rest, lines = line :: rest /\ strip line = [].
Proof.
  intros Hi. destruct (loops_grow lines) as (Hg & _ & _).
  apply Hg in Hi as [[_ Hb]|Hlt]; [done|simpl in Hlt; lia].
Qed.

(** C2 (as the code has it): when the candidate id, trimmed and
    uppercased, is equal to the [order_id] of a pending order, [add_order]
    returns the duplicate-id error after reading that one line; the order
    is not created, the pending list is as it was and no file is
    written. *)
Theorem add_order_duplicate (orders : list value) (w : world) (raw : str)
    (rest : list str) (order : value) :
  stdin w = raw :: rest ->
  Forall has_order_id orders -> order ∈ orders ->
  getitem order k_order_id = Returns (VStr (upper (strip raw))) ->
  add_order orders w
  = (Returns (Duplicate (upper (strip raw)), orders),
     World (files w) rest (stdout w ++ [Prompt AskOrderId])).
Proof.
  intros Hin Hall Ho Hid. unfold add_order, bind, input, lift. rewrite Hin.
  by rewrite (any_order_id_found orders order _ Hall Ho Hid).
Qed.

(** C6: when no pending order has the candidate id and the first item name
    is blank (so that item collection ends with no item), [add_order]
    returns the "no items" failure; the pending list is as it was and no
    file is written. *)
Theorem add_order_no_items (orders : list value) (w : world)
    (raw_id raw_customer blank : str) (rest : list str) :
  stdin w = raw_id :: raw_customer :: blank :: rest ->
  any_order_id orders (upper (strip raw_id)) = Returns false ->
  strip blank = [] ->
  exists w', add_order orders w = (Returns (NeedItem, orders), w')
    /\ files w' = files w /\ stdin w' = rest.
Proof.
  intros Hin Hany Hblank. unfold add_order, bind, input, lift. rewrite Hin, Hany.
  simpl. rewrite Hblank. simpl. eauto.
Qed.

(** A call of [add_order] that returns "no items" has written no file and
    left the list as it was, whatever it read. *)
Lemma add_order_need_item (orders orders' : list value) (w w' : world) :
  add_order orders w = (Returns (NeedItem, orders'), w') ->
  orders' = orders /\ files w' = files w.
Proof.
  unfold add_order, bind, input, lift.
  destruct (stdin w) as [|raw rest]; [done|].
  destruct (any_order_id orders (upper (strip raw))) as [[|]|]; try done.
  unfold asked at 2. cbn [stdin]. destruct rest as [|raw' rest]; [done|].
  cbn [stdin asked].
  destruct (loops_files rest) as (Hf & _ & _).
  match goal with |- context [item_loop rest [] ?w0] =>
    specialize (Hf [] w0); destruct (item_loop rest [] w0) as [[items|e] w1] end;
    [|done].
  destruct items; simpl; [|done].
  unfold ret. by intros [= <- <-].
Qed.
End AddOrder.

Section Total.

Lemma subtotal_item_value (i : Item) :
  subtotal (item_value i) = Some (price i * quantity i)%Z.
Proof. reflexivity. Qed.

(** C4: for an order whose [items] is a list of items with integer price
    and quantity, [calculate_order_total] is the sum over the items of
    price times quantity, in exact integers.  The function is pure: it
    reads the order and has no store to change. *)
Theorem calculate_order_total_sum (order : value) (l : list Item) :
  getitem order k_items = Returns (VList (map item_value l)) ->
  calculate_order_total order = Some (spec_total l).
Proof.
  intros Hi. unfold calculate_order_total. rewrite Hi. cbn [iterate].
  assert (Hgen : forall a,
    fold_left (fun acc item =>
                 match acc, subtotal item with
                 | Some a, Some x => Some (a + x)%Z
                 | _, _ => None
                 end) (map item_value l) (Some a) = Some (a + spec_total l)%Z).
  { clear Hi. induction l as [|i l IH]; intros a; cbn [map fold_left spec_total].
    - f_equal. lia.
    - rewrite subtotal_item_value, IH. f_equal. lia. }
  rewrite Hgen. f_equal.
Qed.
End Total.

Section Store.
Context `{Runtime}.



Lemma strip_bracketed (m : str) : strip (91 :: m ++ [93]) = 91 :: m ++ [93].
Proof.
  assert (Hrev : forall (a b : N) (t : str), rev (a :: t ++ [b]) = b :: rev t ++ [a]).
  { intros a b t. cbn [rev]. by rewrite rev_app_distr. }
  unfold strip, rstrip, lstrip. cbn [drop_while]. change (is_space 91) with false.
  cbv iota. rewrite Hrev. cbn [drop_while]. change (is_space 93) with false.
  cbv iota. by rewrite Hrev, rev_involutive.
Qed.

Lemma encode_list_bracketed (l : list value) :
  exists m, json_dumps (VList l) = 91 :: m ++ [93].
Proof.
  unfold json_dumps. destruct l as [|x l]; [by exists []|].
  pose proof (encode_list_cons 0 x l []) as He. rewrite app_nil_r in He.
  rewrite He. unfold list_tail.
  exists (newline_indent 1 ++ encode 1 x
          ++ flat_map (fun q => (44 :: newline_indent 1) ++ q) (map (encode 1) l)
          ++ newline_indent 0).
  by rewrite <- !app_assoc.
Qed.


(** A file whose text, once stripped, is a JSON document: [load_data]
    returns the parsed value. *)
Lemma load_data_parsed (filename : str) (w : world) (content : str) (v : value) :
  files w !! filename = Some (Text content) ->
  strip content <> [] -> json_loads (strip content) = Returns v ->
  load_data filename w = (Returns v, w).
Proof.
  intros Hf Hne Hv. unfold load_data, try_except, bind, read_text, lift, ret.
  rewrite Hf. simpl. destruct (strip content); [done|]. simpl. by rewrite Hv.
Qed.


Lemma plain_item_value (i : Item) : plain (item_value i).
Proof.
  constructor; [compute_done|].
  repeat constructor.
Qed.

Lemma plain_order_value (o : Order) : plain (order_value o).
Proof.
  constructor; [compute_done|].
  repeat constructor. cbn [snd]. apply Forall_forall.
  intros v (i & -> & _)%list_elem_of_fmap. apply plain_item_value.
Qed.

End Store.

(** * Further properties of the operations *)

Section AddOrderMore.
Context `{Runtime}.

(** What the loops return extends what they were given by valid items. *)
Lemma loops_valid (lines : list str) :
  (forall items w r w', item_loop lines items w = (Returns r, w') ->
     exists new, r = items ++ new /\ Forall valid_item new)
  /\ (forall name items w r w', name <> [] ->
        price_loop lines name items w = (Returns r, w') ->
        exists new, r = items ++ new /\ Forall valid_item new)
  /\ (forall name price items w r w', name <> [] -> (0 <= price)%Z ->
        quantity_loop lines name price items w = (Returns r, w') ->
        exists new, r = items ++ new /\ Forall valid_item new).
Proof.
  induction lines as [|line lines (IHi & IHp & IHq)]; [done|].
  split_and!.
  - intros items w r w'. simpl. destruct (strip line) as [|c n] eqn:Es; simpl.
    + intros [= <- <-]. exists []. by rewrite app_nil_r.
    + by apply IHp.
  - intros nm items w r w' Hn. simpl.
    destruct (int (strip line)) as [p|[]]; try done.
    + destruct (Z.ltb_spec p 0); [by apply IHp|by apply IHq].
    + by apply IHp.
  - intros nm pr items w r w' Hn Hp. simpl.
    destruct (int (strip line)) as [q|[]]; try done.
    + destruct (Z.leb_spec q 0); [by apply IHq|].
      intros (new & -> & Hnew)%IHi.
      exists (make_item nm pr q :: new). split; [by rewrite <- app_assoc|].
      constructor; [|done]. by exists nm, pr, q.
    + by apply IHq.
Qed.


(** A run of [add_order] that returns, read backwards. *)
Lemma add_order_returns (orders orders' : list value) (w w' : world) (msg : message) :
  add_order orders w = (Returns (msg, orders'), w') ->
  match msg with
  | Duplicate id =>
      orders' = orders /\ files w' = files w /\ any_order_id orders id = Returns true
  | NeedItem => orders' = orders /\ files w' = files w
  | Added id =>
      exists customer items,
        any_order_id orders id = Returns false
        /\ items <> [] /\ Forall valid_item items
        /\ orders' = orders ++ [new_order id customer items]
        /\ files w' = <[INPUT_FILE := Text (json_dumps (VList orders'))]> (files w)
  | _ => False
  end.
Proof.
  unfold add_order, bind, input, lift.
  destruct (stdin w) as [|raw rest]; [done|].
  destruct (any_order_id orders (upper (strip raw))) as [[|]|] eqn:Eany; try done.
  { unfold ret. by intros [= <- <- <-]. }
  unfold asked at 2. cbn [stdin]. destruct rest as [|raw' rest]; [done|].
  cbn [stdin asked].
  destruct (loops_files rest) as (Hf & _ & _).
  destruct (loops_valid rest) as (Hv & _ & _).
  match goal with |- context [item_loop rest [] ?w0] =>
    specialize (Hf [] w0); specialize (Hv [] w0);
    destruct (item_loop rest [] w0) as [[items|e] w1] end; [|done].
  destruct (Hv _ _ eq_refl) as (new & Hnew & Hvalid). simpl in Hnew, Hf. subst new.
  destruct items as [|it items]; simpl.
  - unfold ret. intros [= <- <- <-]. by rewrite Hf.
  - unfold save_orders, write_text, ret. intros [= <- <- <-].
    exists (strip raw'), (it :: items). split_and!; try done.
    simpl. by rewrite Hf.
Qed.

(** X2: whatever was typed, an order that [add_order] reports as added has
    an id that no pending order had, one or more items, each with a name
    that is not empty, a price that is not negative and a positive
    quantity; it is appended after the pending orders, which are kept, and
    the pending file holds the new list. *)
Theorem add_order_created_order (orders orders' : list value) (w w' : world) (id : str) :
  add_order orders w = (Returns (Added id, orders'), w') ->
  exists customer items,
    any_order_id orders id = Returns false
    /\ items <> [] /\ Forall valid_item items
    /\ orders' = orders ++ [new_order id customer items]
    /\ files w' = <[INPUT_FILE := Text (json_dumps (VList orders'))]> (files w).
Proof. intros Hadd. exact (add_order_returns _ _ _ _ _ Hadd). Qed.

Lemma any_order_id_absent (orders : list value) (id : str) :
  any_order_id orders id = Returns false ->
  Returns (VStr id) ∉ order_ids orders.
Proof.
  induction orders as [|o orders IH]; [intros _; by apply not_elem_of_nil|].
  cbn [any_order_id]. unfold order_ids. cbn [map].
  destruct (getitem o k_order_id) as [v|] eqn:Ev; [|done].
  destruct (eq_str v id) eqn:Eq; [done|]. intros Hrest.
  apply not_elem_of_cons. split; [|by apply IH].
  intros [= <-]. simpl in Eq. by rewrite bool_decide_true in Eq.
Qed.

(** X3: [add_order] keeps the ids of the pending orders distinct: if no two
    pending orders have the same [order_id] before the call, none have
    after it, whatever the call returns. *)
Theorem add_order_keeps_ids_distinct (orders orders' : list value) (w w' : world)
    (msg : message) :
  NoDup (order_ids orders) ->
  add_order orders w = (Returns (msg, orders'), w') ->
  NoDup (order_ids orders').
Proof.
  intros Hnd Hadd. apply add_order_returns in Hadd.
  destruct msg; try done.
  - by destruct Hadd as (-> & _).
  - by destruct Hadd as (-> & _).
  - destruct Hadd as (customer & its & Hany & _ & _ & -> & _).
    unfold order_ids. rewrite map_app. apply NoDup_app. split_and!; [done| |].
    + intros x Hx [->|[]%elem_of_nil]%elem_of_cons.
      by apply (any_order_id_absent _ _ Hany).
    + apply NoDup_singleton.
Qed.





End AddOrderMore.

Section DispatchMore.
Context `{Runtime}.


(** A run of [dispatch], read backwards. *)
Lemma dispatch_returns (orders orders' : list value) (choice : str) (w w' : world)
    (msg : message) (sent : option value) :
  dispatch orders choice w = (Returns (msg, sent, orders'), w') ->
  exists k order completed order_id,
    int choice = Returns k
    /\ pop orders (k - 1) = Returns (order, orders')
    /\ fst (load_data OUTPUT_FILE w) = Returns (VList completed)
    /\ getitem order k_order_id = Returns order_id
    /\ msg = Dispatched order_id /\ sent = Some order
    /\ files w' = <[OUTPUT_FILE := Text (json_dumps (VList (completed ++ [order])))]>
                    (<[INPUT_FILE := Text (json_dumps (VList orders'))]> (files w))
    /\ stdin w' = stdin w.
Proof.
  unfold dispatch. unfold bind at 1, lift at 1.
  destruct (int choice) as [k|]; [|done].
  unfold bind at 1, lift at 1.
  destruct (pop orders (k - 1)) as [[o os]|] eqn:Epop; [|done]. cbn [fst snd].
  unfold bind at 1. rewrite load_data_world.
  destruct (fst (load_data OUTPUT_FILE w)) as [v|]; [|done].
  unfold bind, lift, append, save_orders, write_text, ret.
  destruct v; try done. simpl.
  destruct (getitem o k_order_id) as [oid|] eqn:Eid; [|done].
  intros [= <- <- <- <-]. by exists k, o, l, oid.
Qed.




(** X7: when the completed file holds a JSON document that is not a list,
    an accepted selection makes [process_order] raise [AttributeError] (the
    document has no [append]); nothing is written, so the order is still in
    the pending file. *)
Theorem process_order_completed_not_list (orders : list value) (w : world)
    (line : str) (rest : list str) (k : Z) (v : value) :
  Forall listed orders ->
  stdin w = line :: rest ->
  isdigit (strip line) = true -> int (strip line) = Returns k ->
  (1 <= k <= Z.of_nat (length orders))%Z ->
  fst (load_data OUTPUT_FILE w) = Returns v -> (forall l, v <> VList l) ->
  exists w', process_order orders w = (Raises AttributeError, w')
    /\ files w' = files w.
Proof.
  intros Hl Hin Hd Hi Hk Hload Hv.
  assert (Hne : orders <> []) by (destruct orders; [simpl in Hk; lia|done]).
  destruct (pop_in_range orders k Hk) as (order & Ho & Hpop).
  destruct (process_order_listing orders w Hne Hl) as [out ->]. rewrite Hin.
  cbn [choice_loop]. destruct (strip line) as [|c choice] eqn:Es.
  { by apply isdigit_nonempty in Hd. }
  cbn [is_empty]. rewrite (accepted _ _ k Hd Hi Hk).
  unfold dispatch. unfold bind at 1, lift at 1. rewrite Hi.
  unfold bind at 1, lift at 1. rewrite Hpop. cbn [fst snd].
  unfold bind at 1. rewrite load_data_world.
  rewrite (load_data_files _ _ w), Hload by done.
  unfold bind, lift, append. destruct v; try (eexists; split; reflexivity).
  by destruct (Hv l).
Qed.
End DispatchMore.

Section Reask.
Context `{Runtime}.

(** [dispatch], step by step. *)
Lemma dispatch_eq (orders : list value) (choice : str) (w : world) :
  dispatch orders choice w
  = match int choice with
    | Raises e => (Raises e, w)
    | Returns k =>
      match pop orders (k - 1) with
      | Raises e => (Raises e, w)
      | Returns (order, orders') =>
        match fst (load_data OUTPUT_FILE w) with
        | Raises e => (Raises e, w)
        | Returns v =>
          match append v order with
          | Raises e => (Raises e, w)
          | Returns completed =>
            let w' := World (<[OUTPUT_FILE := Text (json_dumps (VList completed))]>
                               (<[INPUT_FILE := Text (json_dumps (VList orders'))]>
                                  (files w)))
                            (stdin w) (stdout w) in
            match getitem order k_order_id with
            | Raises e => (Raises e, w')
            | Returns order_id => (Returns (Dispatched order_id, Some order, orders'), w')
            end
          end
        end
      end
    end.
Proof.
  unfold dispatch. unfold bind at 1, lift at 1.
  destruct (int choice) as [k|]; [|done].
  unfold bind at 1, lift at 1.
  destruct (pop orders (k - 1)) as [[o os]|]; [|done]. cbn [fst snd].
  unfold bind at 1. rewrite load_data_world.
  destruct (fst (load_data OUTPUT_FILE w)) as [v|]; [|done].
  unfold bind at 1, lift at 1. cbn [fst]. destruct (append v o) as [cs|]; [|done].
  unfold bind, lift, save_orders, write_text, ret. cbn [files stdin stdout].
  by destruct (getitem o k_order_id).
Qed.

(** What was printed so far has no part in what [dispatch] and the
    selection loop do. *)
Lemma dispatch_stdout (orders : list value) (choice : str) (w : world)
    (out : list event) :
  let run1 := dispatch orders choice w in
  let run2 := dispatch orders choice (World (files w) (stdin w) out) in
  fst run1 = fst run2 /\ files (snd run1) = files (snd run2)
  /\ stdin (snd run1) = stdin (snd run2).
Proof.
  cbv zeta. rewrite !dispatch_eq.
  rewrite (load_data_files OUTPUT_FILE (World (files w) (stdin w) out) w) by done.
  destruct (int choice) as [k|]; [|done].
  destruct (pop orders (k - 1)) as [[o os]|]; [|done].
  destruct (fst (load_data OUTPUT_FILE w)) as [v|]; [|done].
  destruct (append v o) as [cs|]; [|done].
  by destruct (getitem o k_order_id).
Qed.

Lemma choice_loop_stdout (orders : list value) (lines : list str) (w : world)
    (out : list event) :
  let run1 := choice_loop orders lines w in
  let run2 := choice_loop orders lines (World (files w) (stdin w) out) in
  fst run1 = fst run2 /\ files (snd run1) = files (snd run2)
  /\ stdin (snd run1) = stdin (snd run2).
Proof.
  revert w out. induction lines as [|line lines IH]; intros w out; [done|].
  cbn [choice_loop]. destruct (is_empty (strip line)); [done|].
  destruct (refused (strip line) orders) as [[|]|]; [| |done].
  - apply (IH (printed BadChoice (asked AskChoice lines w))).
  - apply (dispatch_stdout orders (strip line) (asked AskChoice lines w)).
Qed.

(** X8: selections that are refused (not a number, or out of range) only
    make [process_order] ask again: with such lines typed first, the result,
    the files and the unread input are what they are without them. *)
Theorem process_order_asks_again (orders : list value) (w : world)
    (bad lines : list str) :
  orders <> [] -> Forall listed orders ->
  Forall (refused_line orders) bad -> stdin w = bad ++ lines ->
  let run1 := process_order orders w in
  let run2 := process_order orders (World (files w) lines (stdout w)) in
  fst run1 = fst run2 /\ files (snd run1) = files (snd run2)
  /\ stdin (snd run1) = stdin (snd run2).
Proof.
  intros Hne Hl Hbad Hin run1 run2. subst run1 run2.
  destruct (process_order_listing orders w Hne Hl) as [out1 ->].
  destruct (process_order_listing orders (World (files w) lines (stdout w)) Hne Hl)
    as [out2 ->].
  rewrite Hin. cbn [files stdin stdout].
  destruct (choice_loop_refused orders bad lines Hbad
              (World (files w) (bad ++ lines) (stdout w ++ out1))) as [out' ->].
  cbn [files stdin stdout].
  rewrite (choice_loop_stdin orders lines (files w) (bad ++ lines) lines).
  apply (choice_loop_stdout orders lines
           (World (files w) lines ((stdout w ++ out1) ++ out')) (stdout w ++ out2)).
Qed.












Lemma print_pending_stdin (orders : list value) (idx : nat) (w : world) :
  stdin (snd (print_pending idx orders w)) = stdin w.
Proof.
  revert idx w. induction orders as [|order orders IH]; intros idx w; [done|].
  simpl. unfold bind, lift, print.
  destruct (getitem order k_order_id); [|done].
  destruct (getitem order k_customer); [|done].
  by rewrite IH.
Qed.


End Reask.

Section StoreMore.
Context `{Runtime}.

(** A file that holds the dump of a list of plain values loads as that
    list. *)
Lemma load_data_dump (filename : str) (w : world) (vs : list value) :
  files w !! filename = Some (Text (json_dumps (VList vs))) ->
  Forall plain vs ->
  load_data filename w = (Returns (VList vs), w).
Proof.
  intros Hf Hp. destruct (encode_list_bracketed vs) as [m Hm].
  apply (load_data_parsed filename w (json_dumps (VList vs))); [done| |].
  - by rewrite Hm, strip_bracketed.
  - rewrite Hm, strip_bracketed, <- Hm. apply json_loads_dumps. by constructor.
Qed.



Lemma make_item_plain (n : str) (p q : Z) : plain (make_item n p q).
Proof. constructor; [compute_done|]. repeat constructor. Qed.

Lemma valid_item_plain (v : value) : valid_item v -> plain v.
Proof. intros (n & p & q & -> & _). apply make_item_plain. Qed.

Lemma new_order_plain (id customer : str) (its : list value) :
  Forall valid_item its -> plain (new_order id customer its).
Proof.
  intros Hv. constructor; [compute_done|].
  repeat constructor. cbn [snd]. eapply Forall_impl; [exact Hv|].
  intros v. apply valid_item_plain.
Qed.

(** X12: after [add_order] has added an order to a list of plain values,
    loading the pending file gives the list the call left in memory: what
    [main] reloads at its next turn is what [add_order] built. *)
Theorem add_order_persists (orders orders' : list value) (w w' : world) (id : str) :
  Forall plain orders ->
  add_order orders w = (Returns (Added id, orders'), w') ->
  fst (load_data INPUT_FILE w') = Returns (VList orders').
Proof.
  intros Hp (customer & its & _ & _ & Hv & -> & Hf)%add_order_returns.
  rewrite (load_data_dump INPUT_FILE w' (orders ++ [new_order id customer its])); [done| |].
  - rewrite Hf. apply lookup_insert_eq.
  - apply Forall_app. split; [done|]. constructor; [|done]. by apply new_order_plain.
Qed.

Lemma pop_returns (l l' : list value) (i : Z) (x : value) :
  pop l i = Returns (x, l') -> exists j, l !! j = Some x /\ l' = delete j l.
Proof.
  unfold pop. destruct (_ <? 0)%Z; [done|].
  match goal with |- context [l !! ?j] => destruct (l !! j) as [y|] eqn:Ey; [|done];
    intros [= <- <-]; by exists j end.
Qed.

(** X13: after [process_order] has dispatched an order, with plain values
    in the pending list and in the completed file, loading the pending file
    gives the list the call left in memory and loading the completed file
    gives the former completed list with the order at its end. *)
Theorem process_order_persists (orders orders' completed : list value) (w w' : world)
    (msg : message) (order : value) :
  Forall plain orders ->
  fst (load_data OUTPUT_FILE w) = Returns (VList completed) -> Forall plain completed ->
  process_order orders w = (Returns (msg, Some order, orders'), w') ->
  fst (load_data INPUT_FILE w') = Returns (VList orders')
  /\ fst (load_data OUTPUT_FILE w') = Returns (VList (completed ++ [order])).
Proof.
  intros Hp Hload Hpc. unfold process_order.
  destruct orders as [|o os]; [done|]. cbn [is_empty].
  unfold bind at 1, print at 1. unfold bind at 1.
  pose proof (print_pending_files (o :: os) 1 (printed ListHeader w)) as Hf.
  destruct (print_pending 1 (o :: os) (printed ListHeader w)) as [[[]|e1] w1]; [|done].
  unfold bind, print. cbn [snd] in Hf.
  assert (Hgen : forall lines w0, files w0 = files w ->
    choice_loop (o :: os) lines w0 = (Returns (msg, Some order, orders'), w') ->
    exists k, pop (o :: os) (k - 1) = Returns (order, orders')
      /\ files w' = <[OUTPUT_FILE := Text (json_dumps (VList (completed ++ [order])))]>
                      (<[INPUT_FILE := Text (json_dumps (VList orders'))]> (files w))).
  { induction lines as [|line lines IH]; intros w0 Hw0; [done|].
    cbn [choice_loop]. destruct (is_empty (strip line)); [done|].
    destruct (refused (strip line) (o :: os)) as [[|]|]; [| |done].
    - by apply IH.
    - intros (k & ord & cs & oid & _ & Hpop & Hl & _ & _ & [= <-] & Hfw & _)%dispatch_returns.
      exists k. split; [done|]. rewrite Hfw. cbn [files asked].
      rewrite (load_data_files _ _ w), Hload in Hl by done.
      injection Hl as <-. by rewrite Hw0. }
  intros (k & Hpop & Hfw)%Hgen; [|done].
  apply pop_returns in Hpop as (j & Hj & ->).
  assert (Hpo : plain order).
  { rewrite Forall_forall in Hp. by eapply Hp, list_elem_of_lookup_2. }
  split.
  - rewrite (load_data_dump INPUT_FILE w' (delete j (o :: os))); [done| |].
    + rewrite Hfw, lookup_insert_ne by done. apply lookup_insert_eq.
    + by apply Forall_delete.
  - rewrite (load_data_dump OUTPUT_FILE w' (completed ++ [order])); [done| |].
    + rewrite Hfw. apply lookup_insert_eq.
    + apply Forall_app. split; [done|]. by constructor.
Qed.
End StoreMore.

Section TotalMore.

Lemma subtotal_make_item (n : str) (p q : Z) :
  subtotal (make_item n p q) = Some (p * q)%Z.
Proof. reflexivity. Qed.

(** X14: the total of an order whose items were collected by [add_order]
    (price not negative, quantity positive) is an integer that is not
    negative. *)
Theorem calculate_order_total_nonnegative (order : value) (its : list value) :
  getitem order k_items = Returns (VList its) -> Forall valid_item its ->
  exists total, calculate_order_total order = Some total /\ (0 <= total)%Z.
Proof.
  intros Hi Hv. unfold calculate_order_total. rewrite Hi. cbn [iterate].
  assert (Hgen : forall a, (0 <= a)%Z ->
    exists t, fold_left (fun acc item =>
                           match acc, subtotal item with
                           | Some a, Some x => Some (a + x)%Z
                           | _, _ => None
                           end) its (Some a) = Some t /\ (0 <= t)%Z).
  { clear Hi. induction Hv as [|v its (n & p & q & -> & _ & Hp & Hq) _ IH];
      intros a Ha; cbn [fold_left]; [eauto|].
    rewrite subtotal_make_item. apply IH. nia. }
  apply Hgen. lia.
Qed.
End TotalMore.

(** * The report *)

Section ReportProps.

Lemma next_eval {A B} (o : outcome A) (k : A -> Screen B) (s : console) :
  next (eval o) k s
  = match o with Returns a => k a s | Raises e => (Ends (Raises e), s) end.
Proof. by destruct o. Qed.

Lemma next_show {B} (l : shown) (k : unit -> Screen B) (s : console) :
  next (show l) k s = k tt (Console (disk s) (keyboard s) (screen s ++ [l])).
Proof. reflexivity. Qed.

Lemma next_done {A B} (a : A) (k : A -> Screen B) (s : console) :
  next (done a) k s = k a s.
Proof. reflexivity. Qed.

Lemma getitem_item_value (i : Item) :
  getitem (item_value i) k_name = Returns (VStr (name i))
  /\ getitem (item_value i) k_price = Returns (VInt (price i))
  /\ getitem (item_value i) k_quantity = Returns (VInt (quantity i)).
Proof. done. Qed.

Lemma getitem_new_order (id customer : str) (its : list value) :
  getitem (new_order id customer its) k_order_id = Returns (VStr id)
  /\ getitem (new_order id customer its) k_customer = Returns (VStr customer)
  /\ getitem (new_order id customer its) k_items = Returns (VList its).
Proof. done. Qed.

Lemma item_rows_records (its : list Item) (total : Z) (s : console) :
  item_rows (map item_value its) total s
  = (Ends (Returns (total + spec_total its)%Z),
     Console (disk s) (keyboard s) (screen s ++ map item_row its)).
Proof.
  revert total s. induction its as [|i its IH]; intros total s.
  - simpl. unfold done. rewrite Z.add_0_r, app_nil_r. by destruct s.
  - destruct (getitem_item_value i) as (Hn & Hp & Hq).
    cbn [map item_rows]. rewrite next_eval, Hp, next_eval, Hq. cbn [as_int].
    rewrite next_eval, Hn, next_show, IH. cbn [disk keyboard screen spec_total].
    rewrite Z.add_assoc, <- app_assoc. done.
Qed.

Lemma print_single_order_records (o : Order) (s : console) :
  _print_single_order (order_value o) s
  = (Ends (Returns tt), Console (disk s) (keyboard s) (screen s ++ block o)).
Proof.
  destruct (getitem_new_order (order_id o) (customer o) (map item_value (items o)))
    as (Hi & Hc & Hl).
  change (new_order _ _ _) with (order_value o) in *.
  unfold _print_single_order.
  rewrite next_eval, Hi, next_show, next_eval, Hc, !next_show, next_eval, Hl.
  rewrite next_eval. cbn [iter iterate]. unfold next at 1. rewrite item_rows_records.
  rewrite !next_show. unfold show, block. cbn [disk keyboard screen].
  rewrite <- !app_assoc. done.
Qed.

Lemma order_blocks_records (orders : list Order) (idx : nat) (s : console) :
  order_blocks idx (map order_value orders) s
  = (Ends (Returns tt),
     Console (disk s) (keyboard s) (screen s ++ numbered_blocks idx orders)).
Proof.
  revert idx s. induction orders as [|o orders IH]; intros idx s.
  - simpl. unfold done. rewrite app_nil_r. by destruct s.
  - cbn [map order_blocks numbered_blocks]. rewrite next_show. unfold next at 1.
    rewrite print_single_order_records, IH. cbn [disk keyboard screen].
    rewrite <- !app_assoc. done.
Qed.

Lemma print_order_report_list (orders : list Order) (title : str) (s : console) :
  print_order_report (VList (map order_value orders)) title false s
  = (Ends (Returns tt),
     Console (disk s) (keyboard s)
             (screen s ++ Title title :: numbered_blocks 1 orders ++ [DoubleRule])).
Proof.
  unfold print_order_report.
  rewrite next_show. cbn [negb]. unfold next at 1. rewrite next_eval.
  cbn [iter iterate]. rewrite order_blocks_records. unfold show.
  cbn [disk keyboard screen]. rewrite <- !app_assoc. done.
Qed.

Lemma print_order_report_single (o : Order) (title : str) (s : console) :
  print_order_report (order_value o) title true s
  = (Ends (Returns tt),
     Console (disk s) (keyboard s)
             (screen s ++ Title title :: block o ++ [DoubleRule])).
Proof.
  unfold print_order_report.
  rewrite next_show. cbn [negb]. unfold next at 1.
  rewrite print_single_order_records. unfold show.
  cbn [disk keyboard screen]. rewrite <- !app_assoc. done.
Qed.

(** X15: the report of orders as the program stores them.  For a list of
    orders [print_order_report] shows the title, then for each order, in
    the order of the list and numbered from 1, its id, its customer, one
    row per item with price times quantity as its subtotal and the sum of
    the subtotals as the total, and a closing rule; for a single order
    (as [main] reports a dispatched order) the same without the number.
    It returns, and it leaves the files and the unread input alone. *)
Theorem print_order_report_records (orders : list Order) (o : Order) (title : str)
    (s : console) :
  print_order_report (VList (map order_value orders)) title false s
  = (Ends (Returns tt),
     Console (disk s) (keyboard s)
             (screen s ++ Title title :: numbered_blocks 1 orders ++ [DoubleRule]))
  /\ print_order_report (order_value o) title true s
     = (Ends (Returns tt),
        Console (disk s) (keyboard s)
                (screen s ++ Title title :: block o ++ [DoubleRule])).
Proof.
  split; [apply print_order_report_list|apply print_order_report_single].
Qed.

Lemma item_rows_returns (items : list value) (total t : Z) (s s' : console) :
  item_rows items total s = (Ends (Returns t), s') ->
  fold_left (fun acc item =>
               match acc, subtotal item with
               | Some a, Some x => Some (a + x)%Z
               | _, _ => None
               end) items (Some total) = Some t
  /\ exists rows,
       s' = Console (disk s) (keyboard s) (screen s ++ rows)
       /\ Forall2 row_of items rows.
Proof.
  revert total s. induction items as [|item items IH]; intros total s.
  - intros [= <- <-]. split; [done|]. exists []. rewrite app_nil_r.
    split; [by destruct s|constructor].
  - cbn [item_rows fold_left]. rewrite next_eval.
    destruct (getitem item k_price) as [p|] eqn:Ep; [|done]. rewrite next_eval.
    destruct (getitem item k_quantity) as [q|] eqn:Eq; [|done].
    assert (Hsub : subtotal item
                   = match as_int p, as_int q with
                     | Some x, Some y => Some (x * y)%Z
                     | _, _ => None
                     end) by (unfold subtotal; by rewrite Ep, Eq).
    destruct (as_int p) as [x|]; [|done]. destruct (as_int q) as [y|]; [|done].
    rewrite next_eval. destruct (getitem item k_name) as [n|] eqn:En; [|done].
    rewrite next_show, Hsub. intros (Hfold & rows & -> & Hrows)%IH.
    split; [done|]. exists (ItemRow n p q (x * y) :: rows).
    cbn [disk keyboard screen]. rewrite <- app_assoc. split; [done|].
    constructor; [|done]. by exists n, p, q, (x * y)%Z.
Qed.

(** X16: the total that the report of an order shows is the one that
    [calculate_order_total] computes.  Whenever [_print_single_order]
    returns, for any order, it has shown the id and the customer, one row
    per item with the subtotal of that item, and a total equal to
    [calculate_order_total] of the order; the files and the unread input
    are as they were. *)
Theorem print_single_order_total (order : value) (s s' : console) :
  _print_single_order order s = (Ends (Returns tt), s') ->
  exists order_id customer its items rows total,
    getitem order k_order_id = Returns order_id
    /\ getitem order k_customer = Returns customer
    /\ getitem order k_items = Returns its /\ iter its = Returns items
    /\ Forall2 row_of items rows
    /\ calculate_order_total order = Some total
    /\ screen s'
       = screen s
         ++ [OrderIdLine order_id; CustomerLine customer; Rule; Columns; Rule]
         ++ rows ++ [Rule; Total total; DoubleRule]
    /\ disk s' = disk s /\ keyboard s' = keyboard s.
Proof.
  unfold _print_single_order. rewrite next_eval.
  destruct (getitem order k_order_id) as [id|] eqn:Ei; [|done].
  rewrite next_show, next_eval.
  destruct (getitem order k_customer) as [c|] eqn:Ec; [|done].
  rewrite !next_show, next_eval.
  destruct (getitem order k_items) as [its|] eqn:El; [|done].
  rewrite next_eval. destruct (iter its) as [items|] eqn:Eit; [|done].
  unfold next at 1.
  match goal with |- context [item_rows items 0 ?s0] =>
    destruct (item_rows items 0 s0) as [[[t|]|] s1] eqn:Er; [|done..] end.
  apply item_rows_returns in Er as (Hfold & rows & -> & Hrows).
  rewrite !next_show. unfold show. cbn [disk keyboard screen].
  intros [= <-]. exists id, c, its, items, rows, t. split_and!; try done.
  - unfold calculate_order_total. rewrite El. unfold iter in Eit.
    destruct (iterate its) as [l|]; [|done]. by injection Eit as ->.
  - cbn [screen]. by rewrite <- !app_assoc.
Qed.

(** The report writes to the screen only. *)
Lemma frame_next {A B} (m : Screen A) (k : A -> Screen B) :
  frame m -> (forall a, frame (k a)) -> frame (next m k).
Proof.
  intros Hm Hk s. unfold next. specialize (Hm s).
  destruct (m s) as [[[a|e]|] s1]; cbn [snd] in *; [|done..].
  destruct (Hk a s1) as [-> ->]. done.
Qed.

Lemma frame_show (l : shown) : frame (show l).
Proof. done. Qed.

Lemma frame_eval {A} (o : outcome A) : frame (eval o).
Proof. done. Qed.

Lemma frame_done {A} (a : A) : frame (done a).
Proof. done. Qed.

Lemma frame_beyond {A} : frame (@beyond A).
Proof. done. Qed.

Lemma frame_truth (v : value) : frame (truth v).
Proof. by destruct v. Qed.

Lemma frame_item_rows (items : list value) (total : Z) : frame (item_rows items total).
Proof.
  revert total. induction items as [|item items IH]; intros total; [done|].
  cbn [item_rows]. apply frame_next; [apply frame_eval|intros p].
  apply frame_next; [apply frame_eval|intros q].
  destruct (as_int p); [|apply frame_beyond]. destruct (as_int q); [|apply frame_beyond].
  apply frame_next; [apply frame_eval|intros n].
  apply frame_next; [apply frame_show|intros _]. apply IH.
Qed.

Lemma frame_print_single_order (order : value) : frame (_print_single_order order).
Proof.
  unfold _print_single_order.
  repeat (apply frame_next; [first [apply frame_eval|apply frame_show
                                    |apply frame_item_rows]|intros ?]).
  apply frame_show.
Qed.

Lemma frame_order_blocks (orders : list value) (idx : nat) :
  frame (order_blocks idx orders).
Proof.
  revert idx. induction orders as [|o orders IH]; intros idx; [done|].
  cbn [order_blocks]. apply frame_next; [apply frame_show|intros _].
  apply frame_next; [apply frame_print_single_order|intros _]. apply IH.
Qed.

Lemma frame_print_order_report (data : value) (title : str) (single : bool) :
  frame (print_order_report data title single).
Proof.
  unfold print_order_report. apply frame_next; [apply frame_show|intros _].
  apply frame_next; [|intros _; apply frame_show].
  destruct single; cbn [negb]; [apply frame_print_single_order|].
  apply frame_next; [apply frame_eval|intros l]. apply frame_order_blocks.
Qed.

End ReportProps.

(** * The menu loop *)

Section MainProps.
Context `{Runtime}.

(** ** The unread input only shrinks *)

Lemma loops_stdin (lines : list str) :
  (forall items w, stdin (snd (item_loop lines items w)) `suffix_of` lines)
  /\ (forall name items w, stdin (snd (price_loop lines name items w)) `suffix_of` lines)
  /\ (forall name price items w,
        stdin (snd (quantity_loop lines name price items w)) `suffix_of` lines).
Proof.
  induction lines as [|line lines (IHi & IHp & IHq)]; [done|].
  split_and!; intros; simpl.
  - destruct (is_empty (strip line)); [by apply suffix_cons_r|].
    apply suffix_cons_r, IHp.
  - destruct (int (strip line)) as [p|[]]; try (by apply suffix_cons_r).
    destruct (p <? 0)%Z; apply suffix_cons_r; [apply IHp|apply IHq].
  - destruct (int (strip line)) as [q|[]]; try (by apply suffix_cons_r).
    destruct (q <=? 0)%Z; apply suffix_cons_r; [apply IHq|apply IHi].
Qed.

Lemma add_order_stdin (orders : list value) (w : world) :
  stdin (snd (add_order orders w)) `suffix_of` stdin w.
Proof.
  unfold add_order, bind, input, lift.
  destruct (stdin w) as [|raw rest]; [done|].
  destruct (any_order_id orders (upper (strip raw))) as [[|]|e0];
    [by apply suffix_cons_r| |by apply suffix_cons_r].
  cbn [stdin asked]. destruct rest as [|raw' rest]; [by apply suffix_nil|].
  cbn [stdin asked]. destruct (loops_stdin rest) as (Hs & _ & _).
  match goal with |- context [item_loop rest [] ?w0] =>
    specialize (Hs [] w0); destruct (item_loop rest [] w0) as [[items|e1] w1] end;
    cbn [snd] in Hs.
  - destruct items; simpl; by do 2 apply suffix_cons_r.
  - by do 2 apply suffix_cons_r.
Qed.

Lemma dispatch_stdin (orders : list value) (choice : str) (w : world) :
  stdin (snd (dispatch orders choice w)) = stdin w.
Proof. rewrite dispatch_eq. by repeat case_match. Qed.

Lemma choice_loop_suffix (orders : list value) (lines : list str) (w : world) :
  stdin (snd (choice_loop orders lines w)) `suffix_of` lines.
Proof.
  revert w. induction lines as [|line lines IH]; intros w; [done|].
  cbn [choice_loop]. destruct (is_empty (strip line)); [by apply suffix_cons_r|].
  destruct (refused (strip line) orders) as [[|]|]; [| |by apply suffix_cons_r].
  - apply suffix_cons_r, IH.
  - rewrite dispatch_stdin. by apply suffix_cons_r.
Qed.

Lemma process_order_stdin (orders : list value) (w : world) :
  stdin (snd (process_order orders w)) `suffix_of` stdin w.
Proof.
  unfold process_order. destruct orders as [|o os]; [done|].
  cbn [is_empty]. unfold bind at 1, print at 1. unfold bind at 1.
  pose proof (print_pending_stdin (o :: os) 1 (printed ListHeader w)) as Hs.
  destruct (print_pending 1 (o :: os) (printed ListHeader w)) as [[[]|e] w1] eqn:Ep;
    cbn [snd stdin printed] in *; [|by rewrite Hs].
  unfold bind, print. cbn [stdin printed]. rewrite Hs. apply choice_loop_suffix.
Qed.

(** ** The steps of a turn *)


Lemma call_load_data (filename : str) (s : console) :
  call (load_data filename) s
  = (Ends (fst (load_data filename (World (disk s) [] []))), s).
Proof.
  unfold call. rewrite load_data_world. cbn [files stdin stdout map].
  rewrite app_nil_r. rewrite (load_data_files _ _ (World (disk s) [] [])) by done.
  by destruct s.
Qed.

Lemma reads_next {A B} (m : Screen A) (k : A -> Screen B) :
  reads m -> (forall a, reads (k a)) -> reads (next m k).
Proof.
  intros Hm Hk s. unfold next. specialize (Hm s).
  destruct (m s) as [[[a|e]|] s1]; cbn [snd] in *; [|done..].
  by etrans; [apply Hk|].
Qed.

Lemma frame_reads {A} (m : Screen A) : frame m -> reads m.
Proof. intros Hm s. by destruct (Hm s) as [_ ->]. Qed.

Lemma reads_call {A} (m : IO A) :
  (forall w, stdin (snd (m w)) `suffix_of` stdin w) -> reads (call m).
Proof.
  intros Hm s. unfold call. specialize (Hm (World (disk s) (keyboard s) [])).
  by destruct (m _) as [o w].
Qed.

Lemma turn_eq (s : console) :
  turn s
  = match keyboard s with
    | [] => (Ends (Raises EOFError), Console (disk s) [] (screen s ++ [Menu; AskMenu]))
    | raw :: rest =>
      let s1 := Console (disk s) rest (screen s ++ [Menu; AskMenu]) in
      match fst (load_data INPUT_FILE (World (disk s) [] [])) with
      | Returns orders => serve (strip raw) orders s1
      | Raises e => (Ends (Raises e), s1)
      end
    end.
Proof.
  unfold turn. rewrite next_show. unfold next at 1, ask. cbn [disk keyboard screen].
  destruct (keyboard s) as [|raw rest]; rewrite <- app_assoc; [done|].
  unfold next. rewrite call_load_data. cbn [disk].
  by destruct (fst (load_data INPUT_FILE _)).
Qed.

Lemma serve_keyboard (choice : str) (orders : value) : reads (serve choice orders).
Proof.
  pose proof (fun A (a : A) => frame_reads _ (frame_done a)) as Hdone.
  pose proof (fun l => frame_reads _ (frame_show l)) as Hshow.
  pose proof (fun A => frame_reads _ (@frame_beyond A)) as Hbeyond.
  pose proof (fun d t b => frame_reads _ (frame_print_order_report d t b)) as Hreport.
  unfold serve. destruct (is_empty choice); [apply Hdone|].
  repeat case_bool_decide; try apply Hdone.
  - destruct orders; try apply Hbeyond.
    apply reads_next; [apply reads_call, add_order_stdin|intros r].
    by apply reads_next.
  - by apply reads_next.
  - destruct orders; try apply Hbeyond.
    apply reads_next; [apply reads_call, process_order_stdin|intros r].
    apply reads_next; [done|intros _]. destruct (snd (fst r)) as [order|]; [|done].
    apply reads_next; [apply frame_reads, frame_truth|intros [|]]; [|done].
    apply reads_next; [done|intros _]. by apply reads_next.
  - by apply reads_next.
Qed.

Lemma turn_keyboard (s s' : console) (r : ending flow) :
  turn s = (r, s') -> (length (keyboard s') < length (keyboard s))%nat \/ keyboard s = [].
Proof.
  rewrite turn_eq. destruct (keyboard s) as [|raw rest] eqn:Ek; [by right|].
  intros Ht. left. cbn [length]. apply Nat.lt_succ_r.
  destruct (fst (load_data INPUT_FILE _)) as [orders|e].
  - pose proof (serve_keyboard (strip raw) orders
                  (Console (disk s) rest (screen s ++ [Menu; AskMenu]))) as Hs.
    cbn zeta in Ht. rewrite Ht in Hs. by apply suffix_length in Hs.
  - by injection Ht as _ <-.
Qed.

(** X17: [main] ends on every input: with more fuel than there are unread
    lines the run of the loop is complete.  Each turn reads a line at line
    153, so when the input ends before an exit choice the run ends with
    the [EOFError] of [input]. *)
Theorem main_ends (fuel : nat) (s : console) :
  (length (keyboard s) < fuel)%nat ->
  exists r s', main fuel s = Some (r, s')
    /\ (keyboard s = [] -> r = Ends (Raises EOFError)).
Proof.
  revert s. induction fuel as [|fuel IH]; intros s Hlen; [lia|].
  cbn [main]. destruct (turn s) as [r s1] eqn:Et.
  pose proof (turn_keyboard _ _ _ Et) as Hk.
  rewrite turn_eq in Et.
  destruct (keyboard s) as [|raw rest] eqn:Ek.
  { injection Et as <- <-. eauto. }
  destruct Hk as [Hk|]; [|done]. cbn [length] in *.
  destruct r as [[[|]|e]|]; try (eexists _, _; split; [reflexivity|done]).
  destruct (IH s1) as (r' & s' & -> & _); [lia|]. by eexists _, _.
Qed.

(** X18: [main] loads the pending file before it looks at the choice (line
    154 comes before line 156).  While the file cannot be read, every turn
    raises the error of the read, also when the line typed is an exit
    choice (blank, or 4): the loop cannot be left in the regular way. *)
Theorem main_unreadable_store (fuel : nat) (s : console) (e : exn) (raw : str)
    (rest : list str) :
  disk s !! INPUT_FILE = Some (Unreadable e) ->
  e <> FileNotFoundError -> e <> JSONDecodeError ->
  keyboard s = raw :: rest ->
  main (S fuel) s
  = Some (Ends (Raises e), Console (disk s) rest (screen s ++ [Menu; AskMenu])).
Proof.
  intros Hf Hn Hj Hk. cbn [main]. rewrite turn_eq, Hk.
  unfold load_data, try_except, bind, read_text. cbn [files]. rewrite Hf.
  by destruct e.
Qed.

(** ** The store *)











(** ** The operations on a sound store *)














(** ** A session *)









(** ** Turns that write nothing *)

Lemma serve_disk (choice : str) (orders : value) (s : console) :
  choice <> lit "1" -> choice <> lit "3" ->
  disk (snd (serve choice orders s)) = disk s
  /\ keyboard (snd (serve choice orders s)) = keyboard s.
Proof.
  intros H1 H3. unfold serve. destruct (is_empty choice); [done|].
  rewrite (bool_decide_false (choice = lit "1")),
    (bool_decide_false (choice = lit "3")) by done.
  case_bool_decide; [|by case_bool_decide].
  apply frame_next; [apply frame_print_order_report|intros _; apply frame_done].
Qed.

(** X22: only the choices 1 and 3 can change a file.  When no line of the
    input is one of these choices, [main] leaves every file as it was,
    whatever the files hold and however the run ends: the report (choice
    2), the exit choices and the choices it does not know write nothing. *)
Theorem main_read_only (fuel : nat) (s s' : console) (r : ending unit) :
  Forall (fun line => strip line <> lit "1" /\ strip line <> lit "3") (keyboard s) ->
  main fuel s = Some (r, s') ->
  disk s' = disk s.
Proof.
  revert s. induction fuel as [|fuel IH]; intros s Hlines; [done|].
  cbn [main]. rewrite turn_eq.
  destruct (keyboard s) as [|raw rest] eqn:Ek; [by intros [= _ <-]|].
  apply Forall_cons_1 in Hlines as [[H1 H3] Hrest].
  destruct (fst (load_data INPUT_FILE _)) as [orders|e]; [|by intros [= _ <-]].
  cbn zeta.
  destruct (serve_disk (strip raw) orders
              (Console (disk s) rest (screen s ++ [Menu; AskMenu])) H1 H3) as [Hd Hkb].
  destruct (serve _ _ _) as [r1 s1]. cbn [snd disk keyboard] in Hd, Hkb.
  destruct r1 as [[[|]|e]|]; try (by intros [= _ <-]).
  intros Hmain%IH; [congruence|]. by rewrite Hkb.
Qed.

End MainProps.

(** * More on the two operations *)

Section Retries.
Context `{Runtime}.








End Retries.

(** * Examples: the theorems at concrete inputs *)

Section Examples.
#[local] Existing Instance latin1.

(** The order of the scenario: A1, for Bob, two cakes at 100. *)
Definition cake : Item := {| name := lit "Cake"; price := 100; quantity := 2 |}.
Definition order_A1 : Order :=
  {| order_id := lit "A1"; customer := lit "Bob"; items := [cake] |}.

(** The same order with its id in lower case, as a file edited by hand
    may hold it. *)
Definition order_a1 : Order :=
  {| order_id := lit "a1"; customer := lit "Bob"; items := [cake] |}.

Definition no_files : gmap str file := ∅.


Lemma process_order_cancelled_witness :
  let orders := [order_value order_A1] in
  let w := World no_files [lit "x"; lit " "] [] in
  orders <> []
  /\ Forall listed orders
  /\ stdin w = [lit "x"] ++ lit " " :: []
  /\ Forall (refused_line orders) [lit "x"]
  /\ strip (lit " ") = []
  /\ exists w', process_order orders w = (Returns (Cancelled, None, orders), w')
       /\ files w' = files w /\ stdin w' = [].
Proof.
  intros orders w.
  assert (H1 : orders <> []) by done.
  assert (H2 : Forall listed orders) by (repeat constructor).
  assert (H3 : stdin w = [lit "x"] ++ lit " " :: []) by reflexivity.
  assert (H4 : Forall (refused_line orders) [lit "x"]).
  { repeat constructor. discriminate. }
  assert (H5 : strip (lit " ") = []) by reflexivity.
  repeat (split; [assumption|]).
  exact (process_order_cancelled orders w [lit "x"] (lit " ") [] H1 H2 H3 H4 H5).
Defined.

Lemma process_order_completed_from_slot_witness :
  let orders := [order_value order_A1] in
  let w := World no_files [lit "1"] [] in
  let w' := snd (process_order orders w) in
  process_order orders w
  = (Returns (Dispatched (VStr (lit "A1")), Some (order_value order_A1), []), w')
  /\ exists completed,
       fst (load_data OUTPUT_FILE w) = Returns (VList completed)
       /\ files w' !! OUTPUT_FILE
          = Some (Text (json_dumps (VList (completed ++ [order_value order_A1])))).
Proof.
  intros orders w w'.
  assert (H1 : process_order orders w
               = (Returns (Dispatched (VStr (lit "A1")), Some (order_value order_A1), []), w'))
    by (vm_compute; reflexivity).
  split; [assumption|].
  exact (process_order_completed_from_slot orders [] w w' _ _ H1).
Defined.

Lemma process_order_superscript_digit_witness :
  let orders := [order_value order_A1] in
  let w := World no_files [[178]] [] in
  is_digit 178 = true /\ to_decimal 178 = None
  /\ orders <> [] /\ Forall listed orders /\ stdin w = [[178]]
  /\ exists w', process_order orders w = (Raises ValueError, w')
       /\ files w' = files w /\ stdin w' = [].
Proof.
  intros orders w.
  assert (H1 : is_digit 178 = true) by reflexivity.
  assert (H2 : to_decimal 178 = None) by reflexivity.
  assert (H3 : orders <> []) by done.
  assert (H4 : Forall listed orders) by (repeat constructor).
  assert (H5 : stdin w = [[178]]) by reflexivity.
  repeat (split; [assumption|]).
  exact (process_order_superscript_digit orders w [] H1 H2 H3 H4 H5).
Defined.

Lemma add_order_duplicate_witness :
  let orders := [order_value order_A1] in
  let w := World no_files [lit " a1 "] [] in
  stdin w = [lit " a1 "]
  /\ Forall has_order_id orders
  /\ order_value order_A1 ∈ orders
  /\ getitem (order_value order_A1) k_order_id = Returns (VStr (upper (strip (lit " a1 "))))
  /\ add_order orders w
     = (Returns (Duplicate (upper (strip (lit " a1 "))), orders),
        World (files w) [] (stdout w ++ [Prompt AskOrderId])).
Proof.
  intros orders w.
  assert (H1 : stdin w = [lit " a1 "]) by reflexivity.
  assert (H2 : Forall has_order_id orders) by (repeat constructor).
  assert (H3 : order_value order_A1 ∈ orders) by (apply elem_of_cons; by left).
  assert (H4 : getitem (order_value order_A1) k_order_id
               = Returns (VStr (upper (strip (lit " a1 "))))) by reflexivity.
  repeat (split; [assumption|]).
  exact (add_order_duplicate orders w (lit " a1 ") [] _ H1 H2 H3 H4).
Defined.

(** C2 fails as stated: the pending order has the id "a1"; the candidate
    "a1" becomes "A1", which matches "a1" without regard to case but is
    not equal to it, and the order is added and saved. *)
Lemma add_order_lowercase_pending_id :
  let orders := [order_value order_a1] in
  let w := World no_files [lit "a1"; lit "Ann"; lit "Tea"; lit "5"; lit "1"; lit ""] [] in
  let tea := {| name := lit "Tea"; price := 5; quantity := 1 |} in
  let added := {| order_id := lit "A1"; customer := lit "Ann"; items := [tea] |} in
  upper (strip (lit "a1")) = upper (lit "a1")
  /\ fst (add_order orders w)
     = Returns (Added (lit "A1"), orders ++ [order_value added])
  /\ files (snd (add_order orders w)) !! INPUT_FILE
     = Some (Text (json_dumps (VList (orders ++ [order_value added])))).
Proof. vm_compute. done. Qed.

Lemma add_order_no_items_witness :
  let orders := [order_value order_A1] in
  let w := World no_files [lit "B2"; lit "Ann"; lit " "] [] in
  stdin w = [lit "B2"; lit "Ann"; lit " "]
  /\ any_order_id orders (upper (strip (lit "B2"))) = Returns false
  /\ strip (lit " ") = []
  /\ exists w', add_order orders w = (Returns (NeedItem, orders), w')
       /\ files w' = files w /\ stdin w' = [].
Proof.
  intros orders w.
  assert (H1 : stdin w = [lit "B2"; lit "Ann"; lit " "]) by reflexivity.
  assert (H2 : any_order_id orders (upper (strip (lit "B2"))) = Returns false)
    by reflexivity.
  assert (H3 : strip (lit " ") = []) by reflexivity.
  repeat (split; [assumption|]).
  exact (add_order_no_items orders w (lit "B2") (lit "Ann") (lit " ") [] H1 H2 H3).
Defined.

Lemma calculate_order_total_sum_witness :
  getitem (order_value order_A1) k_items = Returns (VList (map item_value [cake]))
  /\ calculate_order_total (order_value order_A1) = Some (spec_total [cake])
  /\ spec_total [cake] = 200%Z.
Proof.
  assert (H1 : getitem (order_value order_A1) k_items
               = Returns (VList (map item_value [cake]))) by reflexivity.
  split; [assumption|]. split; [|reflexivity].
  exact (calculate_order_total_sum (order_value order_A1) [cake] H1).
Defined.


(** A file that cannot be opened: the exception is not caught. *)
Lemma load_data_unreadable :
  fst (load_data INPUT_FILE (World {[INPUT_FILE := Unreadable PermissionError]} [] []))
  = Raises PermissionError.
Proof. vm_compute. reflexivity. Qed.


(** The scenario of the specification: add A1, its total is 200, dispatch
    it; the pending file then holds no order and the completed file holds
    A1. *)
Example scenario :
  let w0 := World no_files
              [lit "a1"; lit "Bob"; lit "Cake"; lit "100"; lit "2"; lit ""; lit "1"] [] in
  let '(r1, w1) := add_order [] w0 in
  let '(r2, w2) := process_order [order_value order_A1] w1 in
  r1 = Returns (Added (lit "A1"), [order_value order_A1])
  /\ calculate_order_total (order_value order_A1) = Some 200%Z
  /\ r2 = Returns (Dispatched (VStr (lit "A1")), Some (order_value order_A1), [])
  /\ fst (load_data INPUT_FILE w2) = Returns (VList [])
  /\ fst (load_data OUTPUT_FILE w2) = Returns (VList [order_value order_A1]).
Proof. vm_compute. done. Qed.
End Examples.

(** * Examples for the further properties *)

Section MoreExamples.
#[local] Existing Instance latin1.

(** Lines that add the order B2 for Ann: one tea at 5. *)
Definition tea : Item := {| name := lit "Tea"; price := 5; quantity := 1 |}.
Definition order_B2 : Order :=
  {| order_id := lit "B2"; customer := lit "Ann"; items := [tea] |}.
Definition add_B2_lines : list str :=
  [lit "b2"; lit " Ann "; lit "Tea"; lit "5"; lit "1"; lit ""].


Lemma add_order_created_order_witness :
  let orders := [order_value order_A1] in
  let w := World no_files add_B2_lines [] in
  let w' := snd (add_order orders w) in
  let orders' := orders ++ [order_value order_B2] in
  add_order orders w = (Returns (Added (lit "B2"), orders'), w')
  /\ exists customer items,
       any_order_id orders (lit "B2") = Returns false
       /\ items <> [] /\ Forall valid_item items
       /\ orders' = orders ++ [new_order (lit "B2") customer items]
       /\ files w' = <[INPUT_FILE := Text (json_dumps (VList orders'))]> (files w).
Proof.
  intros orders w w' orders'.
  assert (H1 : add_order orders w = (Returns (Added (lit "B2"), orders'), w'))
    by (vm_compute; reflexivity).
  split; [assumption|].
  exact (add_order_created_order orders orders' w w' (lit "B2") H1).
Defined.

Lemma add_order_keeps_ids_distinct_witness :
  let orders := [order_value order_A1] in
  let w := World no_files add_B2_lines [] in
  let w' := snd (add_order orders w) in
  let orders' := orders ++ [order_value order_B2] in
  NoDup (order_ids orders)
  /\ add_order orders w = (Returns (Added (lit "B2"), orders'), w')
  /\ NoDup (order_ids orders').
Proof.
  intros orders w w' orders'.
  assert (H1 : NoDup (order_ids orders)) by (apply NoDup_singleton).
  assert (H2 : add_order orders w = (Returns (Added (lit "B2"), orders'), w'))
    by (vm_compute; reflexivity).
  repeat (split; [assumption|]).
  exact (add_order_keeps_ids_distinct orders orders' w w' _ H1 H2).
Defined.




(** A completed file that holds an object, not a list. *)
Definition object_completed : gmap str file := {[OUTPUT_FILE := Text (lit "{}")]}.

Lemma process_order_completed_not_list_witness :
  let orders := [order_value order_A1] in
  let w := World object_completed [lit "1"] [] in
  Forall listed orders
  /\ stdin w = [lit "1"]
  /\ isdigit (strip (lit "1")) = true
  /\ int (strip (lit "1")) = Returns 1%Z
  /\ (1 <= 1 <= Z.of_nat (length orders))%Z
  /\ fst (load_data OUTPUT_FILE w) = Returns (VDict [])
  /\ (forall l, VDict [] <> VList l)
  /\ exists w', process_order orders w = (Raises AttributeError, w')
       /\ files w' = files w.
Proof.
  intros orders w.
  assert (H1 : Forall listed orders) by (repeat constructor).
  assert (H2 : stdin w = [lit "1"]) by reflexivity.
  assert (H3 : isdigit (strip (lit "1")) = true) by reflexivity.
  assert (H4 : int (strip (lit "1")) = Returns 1%Z) by reflexivity.
  assert (H5 : (1 <= 1 <= Z.of_nat (length orders))%Z) by (simpl; lia).
  assert (H6 : fst (load_data OUTPUT_FILE w) = Returns (VDict [])) by reflexivity.
  assert (H7 : forall l, VDict [] <> VList l) by discriminate.
  repeat (split; [assumption|]).
  exact (process_order_completed_not_list orders w (lit "1") [] 1 (VDict [])
           H1 H2 H3 H4 H5 H6 H7).
Defined.

Lemma process_order_asks_again_witness :
  let orders := [order_value order_A1] in
  let w := World no_files [lit "x"; lit "9"; lit "1"] [] in
  orders <> []
  /\ Forall listed orders
  /\ Forall (refused_line orders) [lit "x"; lit "9"]
  /\ stdin w = [lit "x"; lit "9"] ++ [lit "1"]
  /\ fst (process_order orders w)
     = fst (process_order orders (World (files w) [lit "1"] (stdout w)))
  /\ files (snd (process_order orders w))
     = files (snd (process_order orders (World (files w) [lit "1"] (stdout w))))
  /\ stdin (snd (process_order orders w))
     = stdin (snd (process_order orders (World (files w) [lit "1"] (stdout w)))).
Proof.
  intros orders w.
  assert (H1 : orders <> []) by done.
  assert (H2 : Forall listed orders) by (repeat constructor).
  assert (H3 : Forall (refused_line orders) [lit "x"; lit "9"]).
  { repeat constructor; discriminate. }
  assert (H4 : stdin w = [lit "x"; lit "9"] ++ [lit "1"]) by reflexivity.
  repeat (split; [assumption|]).
  exact (process_order_asks_again orders w [lit "x"; lit "9"] [lit "1"] H1 H2 H3 H4).
Defined.





Lemma add_order_persists_witness :
  let orders := [order_value order_A1] in
  let w := World no_files add_B2_lines [] in
  let w' := snd (add_order orders w) in
  let orders' := orders ++ [order_value order_B2] in
  Forall plain orders
  /\ add_order orders w = (Returns (Added (lit "B2"), orders'), w')
  /\ fst (load_data INPUT_FILE w') = Returns (VList orders').
Proof.
  intros orders w w' orders'.
  assert (H1 : Forall plain orders).
  { constructor; [apply (plain_order_value order_A1)|constructor]. }
  assert (H2 : add_order orders w = (Returns (Added (lit "B2"), orders'), w'))
    by (vm_compute; reflexivity).
  repeat (split; [assumption|]).
  exact (add_order_persists orders orders' w w' (lit "B2") H1 H2).
Defined.

Lemma process_order_persists_witness :
  let orders := [order_value order_A1; order_value order_B2] in
  let w := World no_files [lit "2"] [] in
  let w' := snd (process_order orders w) in
  Forall plain orders
  /\ fst (load_data OUTPUT_FILE w) = Returns (VList [])
  /\ Forall plain (@nil value)
  /\ process_order orders w
     = (Returns (Dispatched (VStr (lit "B2")), Some (order_value order_B2),
                 [order_value order_A1]), w')
  /\ fst (load_data INPUT_FILE w') = Returns (VList [order_value order_A1])
  /\ fst (load_data OUTPUT_FILE w') = Returns (VList ([] ++ [order_value order_B2])).
Proof.
  intros orders w w'.
  assert (H1 : Forall plain orders).
  { constructor; [apply (plain_order_value order_A1)|].
    constructor; [apply (plain_order_value order_B2)|constructor]. }
  assert (H2 : fst (load_data OUTPUT_FILE w) = Returns (VList [])) by reflexivity.
  assert (H3 : Forall plain (@nil value)) by constructor.
  assert (H4 : process_order orders w
               = (Returns (Dispatched (VStr (lit "B2")), Some (order_value order_B2),
                           [order_value order_A1]), w'))
    by (vm_compute; reflexivity).
  repeat (split; [assumption|]).
  exact (process_order_persists orders _ [] w w' _ _ H1 H2 H3 H4).
Defined.

Lemma calculate_order_total_nonnegative_witness :
  getitem (order_value order_A1) k_items = Returns (VList [item_value cake])
  /\ Forall valid_item [item_value cake]
  /\ exists total,
       calculate_order_total (order_value order_A1) = Some total /\ (0 <= total)%Z.
Proof.
  assert (H1 : getitem (order_value order_A1) k_items = Returns (VList [item_value cake]))
    by reflexivity.
  assert (H2 : Forall valid_item [item_value cake]).
  { constructor; [|constructor].
    exists (lit "Cake"), 100%Z, 2%Z. repeat split; try discriminate; lia. }
  repeat (split; [assumption|]).
  exact (calculate_order_total_nonnegative (order_value order_A1) [item_value cake] H1 H2).
Defined.
End MoreExamples.

(** * Examples for the report and the menu loop *)

Section MainExamples.
#[local] Existing Instance latin1.

(** A console with no files and the lines that follow. *)
Definition fresh (lines : list str) : console := Console no_files lines [].



Lemma print_single_order_total_witness :
  let s := fresh [] in
  let s' := snd (_print_single_order (order_value order_A1) s) in
  _print_single_order (order_value order_A1) s = (Ends (Returns tt), s')
  /\ exists order_id customer its items rows total,
       getitem (order_value order_A1) k_order_id = Returns order_id
       /\ getitem (order_value order_A1) k_customer = Returns customer
       /\ getitem (order_value order_A1) k_items = Returns its
       /\ iter its = Returns items
       /\ Forall2 row_of items rows
       /\ calculate_order_total (order_value order_A1) = Some total
       /\ screen s'
          = screen s
            ++ [OrderIdLine order_id; CustomerLine customer; Rule; Columns; Rule]
            ++ rows ++ [Rule; Total total; DoubleRule]
       /\ disk s' = disk s /\ keyboard s' = keyboard s.
Proof.
  intros s s'.
  assert (H1 : _print_single_order (order_value order_A1) s = (Ends (Returns tt), s'))
    by reflexivity.
  split; [assumption|].
  exact (print_single_order_total (order_value order_A1) s s' H1).
Defined.

Lemma main_ends_witness :
  let s := fresh [lit "2"; lit "9"] in
  (length (keyboard s) < 3)%nat
  /\ exists r s', main 3 s = Some (r, s')
       /\ (keyboard s = [] -> r = Ends (Raises EOFError)).
Proof.
  intros s.
  assert (H1 : (length (keyboard s) < 3)%nat) by (simpl; lia).
  split; [assumption|].
  exact (main_ends 3 s H1).
Defined.

Lemma main_unreadable_store_witness :
  let s := Console {[ INPUT_FILE := Unreadable PermissionError ]} [lit "4"] [] in
  disk s !! INPUT_FILE = Some (Unreadable PermissionError)
  /\ PermissionError <> FileNotFoundError
  /\ PermissionError <> JSONDecodeError
  /\ keyboard s = [lit "4"]
  /\ main 1 s
     = Some (Ends (Raises PermissionError),
             Console (disk s) [] (screen s ++ [Menu; AskMenu])).
Proof.
  intros s.
  assert (H1 : disk s !! INPUT_FILE = Some (Unreadable PermissionError))
    by apply lookup_singleton_eq.
  assert (H2 : PermissionError <> FileNotFoundError) by discriminate.
  assert (H3 : PermissionError <> JSONDecodeError) by discriminate.
  assert (H4 : keyboard s = [lit "4"]) by reflexivity.
  repeat (split; [assumption|]).
  exact (main_unreadable_store 0 s PermissionError (lit "4") [] H1 H2 H3 H4).
Defined.




Lemma main_read_only_witness :
  let s := Console {[ INPUT_FILE := Text (lit "[]") ]} [lit "2"; lit "x"; lit "4"] [] in
  let s' := match main 3 s with Some (_, s') => s' | None => s end in
  Forall (fun line => strip line <> lit "1" /\ strip line <> lit "3") (keyboard s)
  /\ main 3 s = Some (Ends (Returns tt), s')
  /\ disk s' = disk s.
Proof.
  intros s s'.
  assert (H1 : Forall (fun line => strip line <> lit "1" /\ strip line <> lit "3")
                 (keyboard s)).
  { repeat constructor; discriminate. }
  assert (H2 : main 3 s = Some (Ends (Returns tt), s')) by (vm_compute; reflexivity).
  repeat (split; [assumption|]).
  exact (main_read_only 3 s s' (Ends (Returns tt)) H1 H2).
Defined.



End MainExamples.
